(** * Staggered task generation: offset hashing, batch generation, statistics

    A shallow embedding of [src/task-generator/hasher.ts] and
    [src/task-generator/TaskGenerator.ts], together with the parts of the
    JavaScript runtime they call (string trimming, UTF-8 encoding, SHA-256,
    hexadecimal digests, [parseInt], insertion-ordered [Map]).

    Conventions.
    - A JavaScript string is the list of its UTF-16 code units.
    - A number that the program uses as a count, an offset, a bin index, a
      time value or a configuration value is a mathematical integer ([Z]);
      all of them stay below 2^53, where double arithmetic is exact.
    - A [Date] holds an integer time value of at most 8.64e15 milliseconds
      in absolute value, or is an Invalid Date; [new Date(t)] clips.
    - The statistics of [analyzeDistribution] (mean, variance, standard
      deviation) and the test of [isDistributionAcceptable] are computed in
      binary64, with the kernel's primitive floats: every operation rounds
      as the source's does, and [NaN] and the infinities are values.
    - [parseInt] yields [NaN] on a string without digits; a call that would
      compute with that [NaN] is kept apart as [NonFinite], and is shown not
      to occur. *)

From Stdlib Require Import String Ascii ZArith List Bool Lia.
From Stdlib Require Import Floats Uint63.
Import ListNotations.

Local Open Scope Z_scope.

(* ================================================================== *)
(** ** JavaScript strings *)

Module Js.

(** UTF-16 code units. *)
Definition JsString := list Z.

(** The code units of an ASCII literal. *)
Definition lit (s : string) : JsString :=
  map (fun c => Z.of_N (N_of_ascii c)) (list_ascii_of_string s).

(** [WhiteSpace] and [LineTerminator] code points of ECMAScript, the
    characters removed by [String.prototype.trim]. *)
Definition isWhiteSpace (c : Z) : bool :=
  ((9 <=? c) && (c <=? 13))          (* TAB LF VT FF CR *)
  || (c =? 32)                       (* SPACE *)
  || (c =? 160)                      (* NO-BREAK SPACE *)
  || (c =? 5760)                     (* OGHAM SPACE MARK *)
  || ((8192 <=? c) && (c <=? 8202))  (* EN QUAD .. HAIR SPACE *)
  || (c =? 8232) || (c =? 8233)      (* LINE / PARAGRAPH SEPARATOR *)
  || (c =? 8239) || (c =? 8287)      (* NARROW NBSP, MEDIUM MATH SPACE *)
  || (c =? 12288)                    (* IDEOGRAPHIC SPACE *)
  || (c =? 65279).                   (* ZERO WIDTH NO-BREAK SPACE *)

Fixpoint trimStart (s : JsString) : JsString :=
  match s with
  | [] => []
  | c :: r => if isWhiteSpace c then trimStart r else s
  end.

Definition trimEnd (s : JsString) : JsString := rev (trimStart (rev s)).

(** [s.trim()] *)
Definition trim (s : JsString) : JsString := trimEnd (trimStart s).

(** [!s] for a string: only the empty string is falsy. *)
Definition falsy (s : JsString) : bool :=
  match s with [] => true | _ => false end.

(** [s.substring(0, n)] for [0 <= n]. *)
Definition substring0 (n : nat) (s : JsString) : JsString := firstn n s.

Definition isHighSurrogate (c : Z) : bool := (55296 <=? c) && (c <=? 56319).
Definition isLowSurrogate (c : Z) : bool := (56320 <=? c) && (c <=? 57343).

(** UTF-8 encoding of a string, as [Buffer.from(s, 'utf8')] and
    [hash.update(s)] do it: a surrogate pair becomes one four-byte sequence,
    an unpaired surrogate becomes U+FFFD. *)
Fixpoint utf8 (s : JsString) : list Z :=
  match s with
  | [] => []
  | c :: r =>
    if c <? 128 then c :: utf8 r
    else if c <? 2048 then
      Z.lor 192 (Z.shiftr c 6) :: Z.lor 128 (Z.land c 63) :: utf8 r
    else if isHighSurrogate c then
      match r with
      | d :: r' =>
        if isLowSurrogate d then
          let cp := 65536 + Z.shiftl (c - 55296) 10 + (d - 56320) in
          Z.lor 240 (Z.shiftr cp 18)
            :: Z.lor 128 (Z.land (Z.shiftr cp 12) 63)
            :: Z.lor 128 (Z.land (Z.shiftr cp 6) 63)
            :: Z.lor 128 (Z.land cp 63) :: utf8 r'
        else 239 :: 191 :: 189 :: utf8 r
      | [] => [239; 191; 189]
      end
    else if isLowSurrogate c then 239 :: 191 :: 189 :: utf8 r
    else
      Z.lor 224 (Z.shiftr c 12)
        :: Z.lor 128 (Z.land (Z.shiftr c 6) 63)
        :: Z.lor 128 (Z.land c 63) :: utf8 r
  end.

(** One lower-case hexadecimal digit. *)
Definition hexDigit (d : Z) : Z := if d <? 10 then 48 + d else 87 + d.

(** [buffer.toString('hex')]: two lower-case digits per byte. *)
Fixpoint toHex (bytes : list Z) : JsString :=
  match bytes with
  | [] => []
  | b :: r => hexDigit (b / 16) :: hexDigit (b mod 16) :: toHex r
  end.

(** The value of a radix-16 digit, if the code unit is one. *)
Definition hexValue (c : Z) : option Z :=
  if (48 <=? c) && (c <=? 57) then Some (c - 48)
  else if (97 <=? c) && (c <=? 102) then Some (c - 87)
  else if (65 <=? c) && (c <=? 70) then Some (c - 55)
  else None.

(** The longest prefix of radix-16 digits, as a list of digit values. *)
Fixpoint hexPrefix (s : JsString) : list Z :=
  match s with
  | [] => []
  | c :: r => match hexValue c with
              | Some d => d :: hexPrefix r
              | None => []
              end
  end.

Definition hexNumber (ds : list Z) : Z :=
  fold_left (fun acc d => 16 * acc + d) ds 0.

(** An optional sign in front of the digits. *)
Definition stripSign (s : JsString) : Z * JsString :=
  match s with
  | c :: r => if c =? 45 then (-1, r) else if c =? 43 then (1, r) else (1, s)
  | [] => (1, s)
  end.

(** An optional [0x] or [0X] in front of the digits (radix 16 only). *)
Definition stripHexPrefix (s : JsString) : JsString :=
  match s with
  | c :: x :: r => if (c =? 48) && ((x =? 120) || (x =? 88)) then r else s
  | _ => s
  end.

(** [parseInt(s, 16)]: leading white space is skipped, then an optional
    sign, then an optional [0x] or [0X]; the longest prefix of digits is the
    value.  [None] is [NaN] (no digit).  Exact for up to thirteen digits. *)
Definition parseInt16 (s : JsString) : option Z :=
  let '(sign, s2) := stripSign (trimStart s) in
  match hexPrefix (stripHexPrefix s2) with
  | [] => None
  | ds => Some (sign * hexNumber ds)
  end.

End Js.

(* ================================================================== *)
(** ** SHA-256 (FIPS 180-4), the digest behind [createHash('sha256')] *)

Module SHA256.

Definition wrap32 (x : Z) : Z := x mod 4294967296.
Definition add32 (x y : Z) : Z := wrap32 (x + y).
Definition rotr (n x : Z) : Z :=
  wrap32 (Z.lor (Z.shiftr x n) (Z.shiftl x (32 - n))).
Definition shr (n x : Z) : Z := Z.shiftr x n.

Definition Ch (x y z : Z) : Z :=
  Z.lxor (Z.land x y) (Z.land (Z.lnot x) z).
Definition Maj (x y z : Z) : Z :=
  Z.lxor (Z.lxor (Z.land x y) (Z.land x z)) (Z.land y z).
Definition Sigma0 (x : Z) : Z :=
  Z.lxor (Z.lxor (rotr 2 x) (rotr 13 x)) (rotr 22 x).
Definition Sigma1 (x : Z) : Z :=
  Z.lxor (Z.lxor (rotr 6 x) (rotr 11 x)) (rotr 25 x).
Definition sigma0 (x : Z) : Z :=
  Z.lxor (Z.lxor (rotr 7 x) (rotr 18 x)) (shr 3 x).
Definition sigma1 (x : Z) : Z :=
  Z.lxor (Z.lxor (rotr 17 x) (rotr 19 x)) (shr 10 x).

Definition K : list Z :=
  [ 1116352408; 1899447441; 3049323471; 3921009573;  961987163; 1508970993;
    2453635748; 2870763221; 3624381080;  310598401;  607225278; 1426881987;
    1925078388; 2162078206; 2614888103; 3248222580; 3835390401; 4022224774;
     264347078;  604807628;  770255983; 1249150122; 1555081692; 1996064986;
    2554220882; 2821834349; 2952996808; 3210313671; 3336571891; 3584528711;
     113926993;  338241895;  666307205;  773529912; 1294757372; 1396182291;
    1695183700; 1986661051; 2177026350; 2456956037; 2730485921; 2820302411;
    3259730800; 3345764771; 3516065817; 3600352804; 4094571909;  275423344;
     430227734;  506948616;  659060556;  883997877;  958139571; 1322822218;
    1537002063; 1747873779; 1955562222; 2024104815; 2227730452; 2361852424;
    2428436474; 2756734187; 3204031479; 3329325298 ].

(** The eight working variables, also the chaining value. *)
Record regs : Set := Regs { ra : Z; rb : Z; rc : Z; rd : Z;
                            re : Z; rf : Z; rg : Z; rh : Z }.

Definition H0 : regs :=
  Regs 1779033703 3144134277 1013904242 2773480762
       1359893119 2600822924  528734635 1541459225.

(** Big-endian bytes of a word and back. *)
Definition bytesOfWord (w : Z) : list Z :=
  [ Z.shiftr w 24 mod 256; Z.shiftr w 16 mod 256;
    Z.shiftr w 8 mod 256; w mod 256 ].

Definition wordOfBytes (b0 b1 b2 b3 : Z) : Z :=
  b0 * 16777216 + b1 * 65536 + b2 * 256 + b3.

Fixpoint wordsOfBytes (l : list Z) : list Z :=
  match l with
  | b0 :: b1 :: b2 :: b3 :: r => wordOfBytes b0 b1 b2 b3 :: wordsOfBytes r
  | _ => []
  end.

(** Padding: a 1 bit, zeros up to 56 modulo 64 bytes, the bit length on
    eight bytes. *)
Definition pad (msg : list Z) : list Z :=
  let len := Z.of_nat (length msg) in
  msg ++ [128] ++ repeat 0 (Z.to_nat ((55 - len) mod 64))
      ++ bytesOfWord (Z.shiftr (8 * len) 32 mod 4294967296)
      ++ bytesOfWord ((8 * len) mod 4294967296).

(** One round with constant [k] and schedule word [w]. *)
Definition round (s : regs) (k w : Z) : regs :=
  let t1 := add32 (add32 (add32 (add32 (rh s) (Sigma1 (re s)))
                                (Ch (re s) (rf s) (rg s))) k) w in
  let t2 := add32 (Sigma0 (ra s)) (Maj (ra s) (rb s) (rc s)) in
  Regs (add32 t1 t2) (ra s) (rb s) (rc s) (add32 (rd s) t1) (re s) (rf s) (rg s).

(** The rounds, with the message schedule kept as a window of the sixteen
    most recent words: [W_t] is its head and [W_(t+16)] is appended. *)
Fixpoint rounds (ks : list Z) (w : list Z) (s : regs) : regs :=
  match ks with
  | [] => s
  | k :: ks' =>
    let wt := nth 0 w 0 in
    let nxt := add32 (add32 (add32 (sigma1 (nth 14 w 0)) (nth 9 w 0))
                            (sigma0 (nth 1 w 0))) wt in
    rounds ks' (tl w ++ [nxt]) (round s k wt)
  end.

Definition compress (h : regs) (block : list Z) : regs :=
  let s := rounds K (wordsOfBytes block) h in
  Regs (add32 (ra h) (ra s)) (add32 (rb h) (rb s))
       (add32 (rc h) (rc s)) (add32 (rd h) (rd s))
       (add32 (re h) (re s)) (add32 (rf h) (rf s))
       (add32 (rg h) (rg s)) (add32 (rh h) (rh s)).

Fixpoint blocks (n : nat) (bytes : list Z) (h : regs) : regs :=
  match n with
  | O => h
  | S n' => blocks n' (skipn 64 bytes) (compress h (firstn 64 bytes))
  end.

Definition digestBytes (h : regs) : list Z :=
  bytesOfWord (ra h) ++ bytesOfWord (rb h) ++ bytesOfWord (rc h)
    ++ bytesOfWord (rd h) ++ bytesOfWord (re h) ++ bytesOfWord (rf h)
    ++ bytesOfWord (rg h) ++ bytesOfWord (rh h).

(** The 32-byte digest of a byte string. *)
Definition sha256 (msg : list Z) : list Z :=
  let p := pad msg in
  digestBytes (blocks (length p / 64) p H0).

End SHA256.

(** [createHash('sha256').update(s).digest('hex')] *)
Definition sha256Hex (s : Js.JsString) : Js.JsString :=
  Js.toHex (SHA256.sha256 (Js.utf8 s)).

(* ================================================================== *)
(** ** Completions *)

(** The value thrown by [throw new Error(message)]. *)
Inductive JsError : Set := Error (message : string).

(** How a call ends: with a value, with a thrown error, or with [NaN] in
    a place where this embedding holds an integer. *)
Inductive Completion (A : Type) : Type :=
| Normal (a : A)
| Throw (e : JsError)
| NonFinite.

Arguments Normal {A} a.
Arguments Throw {A} e.
Arguments NonFinite {A}.

Definition bind {A B : Type} (c : Completion A) (k : A -> Completion B)
  : Completion B :=
  match c with
  | Normal a => k a
  | Throw e => Throw e
  | NonFinite => NonFinite
  end.

Notation "x <- c ;; k" := (bind c (fun x => k))
  (at level 61, c at next level, right associativity).

Definition throws {A : Type} (c : Completion A) : Prop :=
  exists e, c = Throw e.

Definition returns {A : Type} (c : Completion A) : Prop :=
  exists a, c = Normal a.

(* ================================================================== *)
(** ** constants.ts *)

Definition SCRAPE_INTERVAL_SECONDS : Z := 300.
Definition DEFAULT_BIN_COUNT : Z := 300.

(* ================================================================== *)
(** ** hasher.ts *)

(** A [Date]: a time value in milliseconds, or an Invalid Date (whose time
    value is [NaN]). *)
Inductive Date : Set :=
| ValidDate (time : Z)
| InvalidDate.

(** The largest time value of a [Date], in absolute value. *)
Definition MAX_TIME : Z := 8640000000000000.

(** [new Date(t)] for an integer [t]: outside the range the result is an
    Invalid Date. *)
Definition newDate (t : Z) : Date :=
  if Z.abs t <=? MAX_TIME then ValidDate t else InvalidDate.

(** [date.getTime()]; [None] is [NaN]. *)
Definition getTime (date : Date) : option Z :=
  match date with
  | ValidDate t => Some t
  | InvalidDate => None
  end.

(** [computeOffset(patientId, binCount)].  The default of [binCount] is
    [DEFAULT_BIN_COUNT]; callers of this definition pass it explicitly. *)
Definition computeOffset (patientId : Js.JsString) (binCount : Z)
  : Completion Z :=
  if Js.falsy patientId || (length (Js.trim patientId) =? 0)%nat then
    Throw (Error "Patient ID is required and cannot be empty")
  else if binCount <=? 0 then
    Throw (Error "Bin count must be a positive integer")
  else
    let hash := sha256Hex patientId in
    match Js.parseInt16 (Js.substring0 8 hash) with
    | Some numericValue => Normal (Z.rem numericValue binCount)
    | None => NonFinite
    end.

(** [computeFireTime(patientId, cycleStart, binCount)] *)
Definition computeFireTime (patientId : Js.JsString) (cycleStart : Date)
    (binCount : Z) : Completion Date :=
  offsetSeconds <- computeOffset patientId binCount ;;
  let fireAt :=
    match getTime cycleStart with
    | Some t => newDate (t + offsetSeconds * 1000)
    | None => InvalidDate
    end in
  Normal fireAt.

(* ================================================================== *)
(** ** [Map<number, number>] *)

(** A [Map] keeps its entries in insertion order; [set] on a present key
    replaces the value in place, [set] on an absent key appends. *)
Module JsMap.

Definition t := list (Z * Z).

Definition empty : t := [].

Fixpoint get (m : t) (k : Z) : option Z :=
  match m with
  | [] => None
  | (k', v) :: r => if k' =? k then Some v else get r k
  end.

Fixpoint set (m : t) (k v : Z) : t :=
  match m with
  | [] => [(k, v)]
  | (k', v') :: r => if k' =? k then (k', v) :: r else (k', v') :: set r k v
  end.

Definition keys (m : t) : list Z := map fst m.
Definition values (m : t) : list Z := map snd m.
Definition size (m : t) : nat := length m.

End JsMap.

(** [x || d] on the result of [Map.get]: [undefined] and [0] are falsy. *)
Definition orElse (x : option Z) (d : Z) : Z :=
  match x with
  | Some v => if v =? 0 then d else v
  | None => d
  end.

(** [for (let i = 0; i < binCount; i++) m.set(i, 0)], entered at [i] with
    [n] iterations left. *)
Fixpoint seedBins (n : nat) (i : Z) (m : JsMap.t) : JsMap.t :=
  match n with
  | O => m
  | S n' => seedBins n' (i + 1) (JsMap.set m i 0)
  end.

Definition initBins (binCount : Z) : JsMap.t :=
  seedBins (Z.to_nat binCount) 0 JsMap.empty.

(** The counting loop of [analyzeDistribution]. *)
Fixpoint countOffsets (patientIds : list Js.JsString) (binCount : Z)
    (binCounts : JsMap.t) : Completion JsMap.t :=
  match patientIds with
  | [] => Normal binCounts
  | patientId :: rest =>
    offset <- computeOffset patientId binCount ;;
    countOffsets rest binCount
      (JsMap.set binCounts offset (orElse (JsMap.get binCounts offset) 0 + 1))
  end.

(** An integer, or one of the infinities: the numbers that [Math.min] and
    [Math.max] return on integer arguments. *)
Inductive ExtInt : Set :=
| NegInfinity
| Finite (z : Z)
| Infinity.

(** One step of [Math.min(...counts)] and of [Math.max(...counts)]; with no
    argument the results are [Infinity] and [-Infinity]. *)
Definition mathMin (a : ExtInt) (b : Z) : ExtInt :=
  match a with
  | NegInfinity => NegInfinity
  | Finite x => Finite (Z.min x b)
  | Infinity => Finite b
  end.

Definition mathMax (a : ExtInt) (b : Z) : ExtInt :=
  match a with
  | NegInfinity => Finite b
  | Finite x => Finite (Z.max x b)
  | Infinity => Infinity
  end.

(** The [Number] of an integer: the nearest binary64 number, ties to even
    (exact up to 2^53 in absolute value). *)
Definition Z2F (z : Z) : float :=
  SF2Prim (binary_normalize prec emax z 0 false).

(** [Math.pow(x, 2)]: for the exponent 2 the result is the product
    [x * x], rounded once. *)
Definition pow2 (x : float) : float := (x * x)%float.

Module Distribution.
Record t : Type := Make
  { binCounts : JsMap.t; min : ExtInt; max : ExtInt;
    mean : float; stdDev : float; variance : float }.
End Distribution.

(** [analyzeDistribution(patientIds, binCount)].  The counts are integers
    and so is their sum; the divisions, the differences, the squares, their
    sum and the square root are binary64 operations.  With no bin at all
    [min] is [Infinity], [max] is [-Infinity] and the mean is [0 / 0]. *)
Definition analyzeDistribution (patientIds : list Js.JsString) (binCount : Z)
  : Completion Distribution.t :=
  binCounts <- countOffsets patientIds binCount (initBins binCount) ;;
  let counts := JsMap.values binCounts in
  let min := fold_left mathMin counts Infinity in
  let max := fold_left mathMax counts NegInfinity in
  let mean :=
    (Z2F (fold_left Z.add counts 0%Z) / Z2F (Z.of_nat (length counts)))%float in
  let squaredDiffs := map (fun count => pow2 (Z2F count - mean)%float) counts in
  let variance :=
    (fold_left PrimFloat.add squaredDiffs 0
     / Z2F (Z.of_nat (length counts)))%float in
  let stdDev := PrimFloat.sqrt variance in
  Normal (Distribution.Make binCounts min max mean stdDev variance).

(** [isDistributionAcceptable(patientIds, binCount, maxVariance)] *)
Definition isDistributionAcceptable (patientIds : list Js.JsString)
    (binCount : Z) (maxVariance : float) : Completion bool :=
  d <- analyzeDistribution patientIds binCount ;;
  let cv := if (0 <? Distribution.mean d)%float
            then (Distribution.stdDev d / Distribution.mean d)%float
            else 0%float in
  Normal (cv <=? maxVariance)%float.

(* ================================================================== *)
(** ** types.ts *)

Inductive RiskLevel : Set := high | medium | low.

Inductive TaskStatus : Set := pending | in_progress | completed | failed.

Module PatientInput.
Record t : Type := Make
  { id : Js.JsString;
    endpointUrl : option Js.JsString;
    riskLevel : option RiskLevel }.
End PatientInput.

Module ScrapeTask.
Record t : Type := Make
  { id : Js.JsString;
    patientId : Js.JsString;
    fireAt : Date;
    offsetSeconds : Z;
    status : TaskStatus;
    consecutiveFailures : Z;
    createdAt : Date;
    completedAt : option Date }.
End ScrapeTask.

Module TaskGeneratorConfig.
Record t : Type := Make
  { intervalSeconds : option Z;
    binCount : option Z }.
End TaskGeneratorConfig.

Module Stats.
Record t : Type := Make
  { totalPatients : Z;
    tasksGenerated : Z;
    binDistribution : JsMap.t;
    generationTimeMs : Z }.
End Stats.

Module TaskGenerationResult.
Record t : Type := Make
  { tasks : list ScrapeTask.t;
    stats : Stats.t }.
End TaskGenerationResult.

(* ================================================================== *)
(** ** The world around the generator *)

(** What the generator reads from and writes to its environment: how many
    identifiers [randomUUID] has handed out, how often the clock was read,
    and the lines written by [console.error]. *)
Record World : Type := MkWorld
  { uuidCalls : nat;
    clockReads : nat;
    console : list (Js.JsString * JsError) }.

(** A computation in a world: its completion and the world it leaves.
    Effects performed before a [throw] stay. *)
Definition M (A : Type) : Type := World -> Completion A * World.

Definition ret {A : Type} (a : A) : M A := fun w => (Normal a, w).

Definition bindM {A B : Type} (c : M A) (k : A -> M B) : M B :=
  fun w =>
    match c w with
    | (Normal a, w') => k a w'
    | (Throw e, w') => (Throw e, w')
    | (NonFinite, w') => (NonFinite, w')
    end.

Definition lift {A : Type} (c : Completion A) : M A := fun w => (c, w).

(** [try { body } catch (error) { handler }] *)
Definition tryCatch {A : Type} (body : M A) (handler : JsError -> M A) : M A :=
  fun w =>
    match body w with
    | (Throw e, w') => handler e w'
    | r => r
    end.

Notation "'let*' x ':=' c 'in' k" := (bindM c (fun x => k))
  (at level 10, x name, c at level 100, k at level 200,
   format "'let*'  x  ':='  c  'in' '//' k").

(** [??] *)
Definition nullish {A : Type} (x : option A) (d : A) : A :=
  match x with
  | Some v => v
  | None => d
  end.

(** [Math.ceil(a / b)] for integers [a] and [0 < b]. *)
Definition ceilDiv (a b : Z) : Z := - ((- a) / b).

(* ================================================================== *)
(** ** TaskGenerator.ts *)

Module TaskGenerator.

Record t : Type := Make
  { intervalSeconds : Z;
    binCount : Z }.

(** [new TaskGenerator(config)]; [new TaskGenerator()] passes the empty
    configuration. *)
Definition constructor (config : TaskGeneratorConfig.t) : Completion t :=
  let this :=
    Make (nullish (TaskGeneratorConfig.intervalSeconds config)
                  SCRAPE_INTERVAL_SECONDS)
         (nullish (TaskGeneratorConfig.binCount config) DEFAULT_BIN_COUNT) in
  if intervalSeconds this <=? 0 then
    Throw (Error "Interval seconds must be positive")
  else if binCount this <=? 0 then
    Throw (Error "Bin count must be positive")
  else if binCount this >? intervalSeconds this then
    Throw (Error "Bin count cannot exceed interval seconds")
  else Normal this.

Definition emptyConfig : TaskGeneratorConfig.t :=
  TaskGeneratorConfig.Make None None.

Section Methods.

(** The identifier that the [n]-th call of [randomUUID()] returns and the
    time that the [n]-th reading of the clock shows. *)
Variable uuids : nat -> Js.JsString.
Variable clock : nat -> Z.

Definition randomUUID : M Js.JsString :=
  fun w => (Normal (uuids (uuidCalls w)),
            MkWorld (S (uuidCalls w)) (clockReads w) (console w)).

(** [Date.now()]: the time value the clock shows. *)
Definition now : M Z :=
  fun w => (Normal (clock (clockReads w)),
            MkWorld (uuidCalls w) (S (clockReads w)) (console w)).

(** [new Date()]: the [Date] of the time value the clock shows. *)
Definition newDateNow : M Date :=
  fun w => (Normal (ValidDate (clock (clockReads w))),
            MkWorld (uuidCalls w) (S (clockReads w)) (console w)).

Definition consoleError (message : Js.JsString) (error : JsError) : M unit :=
  fun w => (Normal tt,
            MkWorld (uuidCalls w) (clockReads w)
                    (console w ++ [(message, error)])).

Variable this : t.

Definition generateTaskForPatient (patient : PatientInput.t)
    (cycleStart : Date) : M ScrapeTask.t :=
  if Js.falsy (PatientInput.id patient) then
    lift (Throw (Error "Patient ID is required"))
  else
    let* offsetSeconds := lift (computeOffset (PatientInput.id patient)
                                            (binCount this)) in
    let* fireAt := lift (computeFireTime (PatientInput.id patient) cycleStart
                                       (binCount this)) in
    let* uuid := randomUUID in
    let* createdAt := newDateNow in
    ret (ScrapeTask.Make uuid (PatientInput.id patient) fireAt offsetSeconds
                         pending 0 createdAt None).

(** The loop over the patients, entered with the tasks and the bin counts
    accumulated so far. *)
Fixpoint forEachPatient (patients : list PatientInput.t) (cycleStart : Date)
    (tasks : list ScrapeTask.t) (binDistribution : JsMap.t)
  : M (list ScrapeTask.t * JsMap.t) :=
  match patients with
  | [] => ret (tasks, binDistribution)
  | patient :: rest =>
    let* acc :=
      tryCatch
        (let* task := generateTaskForPatient patient cycleStart in
         let tasks' := tasks ++ [task] in
         let currentCount :=
           orElse (JsMap.get binDistribution (ScrapeTask.offsetSeconds task))
                  0 in
         ret (tasks',
              JsMap.set binDistribution (ScrapeTask.offsetSeconds task)
                        (currentCount + 1)))
        (fun error =>
           let* _ := consoleError
                     (Js.lit "Failed to generate task for patient "
                        ++ PatientInput.id patient ++ Js.lit ":") error in
           ret (tasks, binDistribution)) in
    forEachPatient rest cycleStart (fst acc) (snd acc)
  end.

Definition generateTasksForPatients (patients : list PatientInput.t)
    (cycleStart : Date) : M TaskGenerationResult.t :=
  let* startTime := now in
  let* acc := forEachPatient patients cycleStart []
                (initBins (binCount this)) in
  let* endTime := now in
  let generationTimeMs := endTime - startTime in
  ret (TaskGenerationResult.Make (fst acc)
         (Stats.Make (Z.of_nat (length patients))
                     (Z.of_nat (length (fst acc)))
                     (snd acc) generationTimeMs)).

Definition generateTasksForNextCycle (patients : list PatientInput.t)
  : M TaskGenerationResult.t :=
  let* now_ms := now in
  let intervalMs := intervalSeconds this * 1000 in
  let nextCycleStart := newDate (ceilDiv now_ms intervalMs * intervalMs) in
  generateTasksForPatients patients nextCycleStart.

Definition getPatientOffset (patientId : Js.JsString) : Completion Z :=
  computeOffset patientId (binCount this).

Definition analyzeDistribution (patients : list PatientInput.t)
  : Completion Distribution.t :=
  let patientIds := map PatientInput.id patients in
  analyzeDistribution patientIds (binCount this).

Definition getConfig : t := Make (intervalSeconds this) (binCount this).

End Methods.

End TaskGenerator.

(* ================================================================== *)
(** ** Vocabulary of the specification *)

(** An identifier that is empty or consists of white space only. *)
Definition isBlank (identifier : Js.JsString) : bool :=
  forallb Js.isWhiteSpace identifier.

(** A record that passes validation: its identifier is not blank. *)
Definition isValidRecord (patient : PatientInput.t) : bool :=
  negb (isBlank (PatientInput.id patient)).

(** The unsigned integer formed by the first 32 bits of a digest: its first
    four bytes, most significant first. *)
Definition first32Bits (digest : list Z) : Z :=
  match digest with
  | b0 :: b1 :: b2 :: b3 :: _ => b0 * 2 ^ 24 + b1 * 2 ^ 16 + b2 * 2 ^ 8 + b3
  | _ => 0
  end.

(** The bin of an identifier: the first 32 bits of its SHA-256 digest,
    modulo the number of bins. *)
Definition binOf (identifier : Js.JsString) (binCount : Z) : Z :=
  first32Bits (SHA256.sha256 (Js.utf8 identifier)) mod binCount.

(** The bin indices [0, 1, ..., binCount - 1]. *)
Definition binIndices (binCount : Z) : list Z :=
  map Z.of_nat (seq 0 (Z.to_nat binCount)).

(** How many of the offsets fall into bin [b]. *)
Definition population (offsets : list Z) (b : Z) : Z :=
  Z.of_nat (length (filter (fun o => o =? b) offsets)).

(** The sum of a list of counts. *)
Definition sumZ (l : list Z) : Z := fold_right Z.add 0 l.

(** Mean, population variance and population standard deviation of a list
    of counts, in binary64: the sum of the counts, and the sum of the
    squared deviations taken from left to right, are divided by the number
    of counts (not by one less). *)
Definition meanOfCounts (counts : list Z) : float :=
  (Z2F (sumZ counts) / Z2F (Z.of_nat (length counts)))%float.

Definition populationVariance (counts : list Z) : float :=
  (fold_left PrimFloat.add
     (map (fun c => ((Z2F c - meanOfCounts counts)
                     * (Z2F c - meanOfCounts counts))%float) counts) 0
   / Z2F (Z.of_nat (length counts)))%float.

Definition populationStdDev (counts : list Z) : float :=
  PrimFloat.sqrt (populationVariance counts).


(** The largest integer [n] such that [n] and [n + 1] are both binary64
    numbers, [Number.MAX_SAFE_INTEGER]: 2^53 - 1. *)
Definition MAX_SAFE_INTEGER : Z := 9007199254740991.

(** A binary64 number that is neither NaN nor negative. *)
Definition notNegative (x : float) : Prop := (0 <=? x)%float = true.

(** *** Auxiliary vocabulary for the proofs *)

Definition isNibble (d : Z) : Prop := 0 <= d < 16.

(** [notNegative] on the specification of binary64 numbers. *)
Definition sfNotNegative (x : spec_float) : Prop :=
  match x with
  | S754_zero _ | S754_infinity false | S754_finite false _ _ => True
  | _ => False
  end.

(** The configuration in effect after the defaults. *)
Definition effectiveInterval (config : TaskGeneratorConfig.t) : Z :=
  match TaskGeneratorConfig.intervalSeconds config with
  | Some i => i
  | None => 300
  end.

Definition effectiveBinCount (config : TaskGeneratorConfig.t) : Z :=
  match TaskGeneratorConfig.binCount config with
  | Some b => b
  | None => 300
  end.

(** One more member in bin [offset]: the update both loops apply. *)
Definition bump (bins : JsMap.t) (offset : Z) : JsMap.t :=
  JsMap.set bins offset (orElse (JsMap.get bins offset) 0 + 1).

Definition bumpAll (offsets : list Z) (bins : JsMap.t) : JsMap.t :=
  fold_left bump offsets bins.

(** The [Date] that lies [offsetSeconds] seconds after the cycle start. *)
Definition fireDate (cycleStart : Date) (offsetSeconds : Z) : Date :=
  match cycleStart with
  | ValidDate t => newDate (t + offsetSeconds * 1000)
  | InvalidDate => InvalidDate
  end.

(** The task created for a valid record in world [w], and the world after
    it: one identifier drawn, the clock read once. *)
Definition taskOf (uuids : nat -> Js.JsString) (clock : nat -> Z)
    (binCount : Z) (patient : PatientInput.t) (cycleStart : Date) (w : World)
  : ScrapeTask.t :=
  ScrapeTask.Make (uuids (uuidCalls w)) (PatientInput.id patient)
    (fireDate cycleStart (binOf (PatientInput.id patient) binCount))
    (binOf (PatientInput.id patient) binCount)
    pending 0 (ValidDate (clock (clockReads w))) None.

Definition afterTask (w : World) : World :=
  MkWorld (S (uuidCalls w)) (S (clockReads w)) (console w).

(** The error caught for a record that is not valid, and the world after
    the handler has logged it. *)
Definition rejection (patient : PatientInput.t) : JsError :=
  if Js.falsy (PatientInput.id patient)
  then Error "Patient ID is required"
  else Error "Patient ID is required and cannot be empty".

Definition afterSkip (patient : PatientInput.t) (w : World) : World :=
  MkWorld (uuidCalls w) (clockReads w)
    (console w ++ [(Js.lit "Failed to generate task for patient "
                      ++ PatientInput.id patient ++ Js.lit ":",
                    rejection patient)]).

(** The loop, record by record, once the outcome of each record is known. *)
Fixpoint loopResult (uuids : nat -> Js.JsString) (clock : nat -> Z)
    (binCount : Z) (patients : list PatientInput.t) (cycleStart : Date)
    (tasks : list ScrapeTask.t) (bins : JsMap.t) (w : World)
  : (list ScrapeTask.t * JsMap.t) * World :=
  match patients with
  | [] => ((tasks, bins), w)
  | patient :: rest =>
    if isValidRecord patient then
      loopResult uuids clock binCount rest cycleStart
        (tasks ++ [taskOf uuids clock binCount patient cycleStart w])
        (bump bins (binOf (PatientInput.id patient) binCount))
        (afterTask w)
    else
      loopResult uuids clock binCount rest cycleStart tasks bins
        (afterSkip patient w)
  end.

(** The offsets of the valid records of a batch, in order. *)
Definition validOffsets (binCount : Z) (patients : list PatientInput.t)
  : list Z :=
  map (fun p => binOf (PatientInput.id p) binCount)
      (filter isValidRecord patients).

(** A task fires at a valid [Date], the cycle start (a time value) plus
    its offset, inside the cycle. *)
Definition firesWithinCycle (cycleStart : Z) (intervalSeconds : Z)
    (task : ScrapeTask.t) : Prop :=
  exists fireAt,
    ScrapeTask.fireAt task = ValidDate fireAt
    /\ fireAt = cycleStart + ScrapeTask.offsetSeconds task * 1000
    /\ cycleStart <= fireAt < cycleStart + intervalSeconds * 1000.

(** A time value in the range that [new Date] admits. *)
Definition inDateRange (t : Z) : Prop := - MAX_TIME <= t <= MAX_TIME.

(** The difference [later - earlier] of two dates, in milliseconds; [None]
    is [NaN], the difference when either is an Invalid Date. *)
Definition millisecondsBetween (earlier later : Date) : option Z :=
  match getTime later, getTime earlier with
  | Some a, Some b => Some (a - b)
  | _, _ => None
  end.

(** What the fire time of a generated task is, valid or not. *)
Definition firesAsScheduled (cycleStart : Z) (intervalSeconds : Z)
    (task : ScrapeTask.t) : Prop :=
  ScrapeTask.fireAt task
  = newDate (cycleStart + ScrapeTask.offsetSeconds task * 1000)
  /\ (cycleStart + ScrapeTask.offsetSeconds task * 1000 <= MAX_TIME ->
      firesWithinCycle cycleStart intervalSeconds task)
  /\ (MAX_TIME < cycleStart + ScrapeTask.offsetSeconds task * 1000 ->
      ScrapeTask.fireAt task = InvalidDate).

(** The cycle start used by the examples: 2026-01-20T10:00:00Z. *)
Definition cycle0 : Date := ValidDate 1768903200000.

(** A generator, an identifier source, a clock and a world to run in. *)
Definition defaultGenerator : TaskGenerator.t := TaskGenerator.Make 300 300.

Definition sampleUuids (k : nat) : Js.JsString :=
  Js.lit "task-" ++ repeat 48 k.

Definition sampleClock (k : nat) : Z := 1768903200000 + Z.of_nat k.

Definition world0 : World := MkWorld 0 0 [].

Definition record (identifier : string) : PatientInput.t :=
  PatientInput.Make (Js.lit identifier) None None.

(** [k] records with the distinct valid identifiers [p] followed by one of
    the code units 1000, 1001, ... *)
Definition validRecords (k : nat) : list PatientInput.t :=
  map (fun j => PatientInput.Make [112; 1000 + Z.of_nat j] None None)
      (seq 0 k).

(** The offsets that [computeOffset] returns for a list of identifiers. *)
Definition offsetsOf (patientIds : list Js.JsString) (binCount : Z)
  : list Z :=
  flat_map (fun i => match computeOffset i binCount with
                     | Normal o => [o]
                     | _ => []
                     end) patientIds.

(** The per-bin counts of a list of identifiers. *)
Definition binPopulations (patientIds : list Js.JsString) (binCount : Z)
  : list Z :=
  map (population (offsetsOf patientIds binCount)) (binIndices binCount).

(** *** Vocabulary for further properties of the code *)

(** The line that the handler of the batch loop writes for a record. *)
Definition logEntry (patient : PatientInput.t) : Js.JsString * JsError :=
  (Js.lit "Failed to generate task for patient "
     ++ PatientInput.id patient ++ Js.lit ":",
   rejection patient).

(** The world after the clock has been read once. *)
Definition afterClock (w : World) : World :=
  MkWorld (uuidCalls w) (S (clockReads w)) (console w).

(** A task rescheduled for another cycle: only its [fireAt] changes, to
    the [Date] its offset gives in that cycle. *)
Definition reschedule (cycleStart : Date) (task : ScrapeTask.t)
  : ScrapeTask.t :=
  ScrapeTask.Make (ScrapeTask.id task) (ScrapeTask.patientId task)
    (fireDate cycleStart (ScrapeTask.offsetSeconds task))
    (ScrapeTask.offsetSeconds task)
    (ScrapeTask.status task) (ScrapeTask.consecutiveFailures task)
    (ScrapeTask.createdAt task) (ScrapeTask.completedAt task).

(** The value of a list of bytes read as one big-endian number. *)
Definition bigEndian (bytes : list Z) : Z :=
  fold_left (fun acc b => 256 * acc + b) bytes 0.

(** The outcome of a call, without the world it leaves. *)
Definition outcome {A : Type} (r : Completion A * World) : Completion A :=
  fst r.

(** The hexadecimal digits of a list of bytes, high digit first. *)
Definition nibbles (bytes : list Z) : list Z :=
  flat_map (fun b => [b / 16; b mod 16]) bytes.

(* ================================================================== *)
(** ** Strings: trimming and hexadecimal digits *)

Lemma trimStart_nil_iff (s : Js.JsString) :
  Js.trimStart s = [] <-> forallb Js.isWhiteSpace s = true.
Proof.
  induction s as [|c r IH]; simpl.
  - tauto.
  - destruct (Js.isWhiteSpace c); simpl.
    + exact IH.
    + split; discriminate.
Qed.

Lemma trimStart_head (s : Js.JsString) :
  match Js.trimStart s with
  | [] => True
  | c :: _ => Js.isWhiteSpace c = false
  end.
Proof.
  induction s as [|c r IH]; simpl; [exact I|].
  destruct (Js.isWhiteSpace c) eqn:E; [exact IH | exact E].
Qed.

Lemma forallb_rev {A : Type} (f : A -> bool) (l : list A) :
  forallb f (rev l) = forallb f l.
Proof.
  induction l as [|a l IH]; simpl; [reflexivity|].
  rewrite forallb_app, IH. simpl. rewrite andb_true_r. apply andb_comm.
Qed.

Lemma trim_nil_iff (s : Js.JsString) :
  Js.trim s = [] <-> isBlank s = true.
Proof.
  unfold Js.trim, Js.trimEnd, isBlank. split.
  - intros H. apply trimStart_nil_iff.
    assert (Hr : Js.trimStart (rev (Js.trimStart s)) = []).
    { destruct (Js.trimStart (rev (Js.trimStart s))) as [|x l];
        [reflexivity|].
      simpl in H. destruct (rev l); discriminate. }
    apply trimStart_nil_iff in Hr. rewrite forallb_rev in Hr.
    pose proof (trimStart_head s) as Hh.
    destruct (Js.trimStart s) as [|c r]; [reflexivity|].
    simpl in Hr. rewrite Hh in Hr. discriminate.
  - intros H. apply trimStart_nil_iff in H. rewrite H. reflexivity.
Qed.

(** The guard of [computeOffset] is the blank test. *)
Lemma guard_isBlank (s : Js.JsString) :
  Js.falsy s || (length (Js.trim s) =? 0)%nat = isBlank s.
Proof.
  destruct (isBlank s) eqn:E.
  - apply trim_nil_iff in E. rewrite E. apply orb_true_r.
  - assert (Ht : Js.trim s <> []).
    { intros H. apply trim_nil_iff in H. congruence. }
    destruct s as [|c r]; [discriminate E|].
    destruct (Js.trim (c :: r)); [contradiction|reflexivity].
Qed.

Lemma nibble_cases (d : Z) :
  0 <= d < 16 ->
  d = 0 \/ d = 1 \/ d = 2 \/ d = 3 \/ d = 4 \/ d = 5 \/ d = 6 \/ d = 7 \/
  d = 8 \/ d = 9 \/ d = 10 \/ d = 11 \/ d = 12 \/ d = 13 \/ d = 14 \/ d = 15.
Proof. lia. Qed.

Ltac by_nibble d H :=
  let C := fresh in
  pose proof (nibble_cases d H) as C;
  repeat (destruct C as [C|C]; [subst d; vm_compute; intuition congruence|]);
  subst d; vm_compute; intuition congruence.

Lemma hexDigit_value (d : Z) :
  0 <= d < 16 -> Js.hexValue (Js.hexDigit d) = Some d.
Proof. intros H. by_nibble d H. Qed.

Lemma hexDigit_not_space (d : Z) :
  0 <= d < 16 -> Js.isWhiteSpace (Js.hexDigit d) = false.
Proof. intros H. by_nibble d H. Qed.

Lemma hexDigit_not_mark (d : Z) :
  0 <= d < 16 ->
  (Js.hexDigit d =? 45) = false /\ (Js.hexDigit d =? 43) = false /\
  (Js.hexDigit d =? 120) = false /\ (Js.hexDigit d =? 88) = false.
Proof. intros H. by_nibble d H. Qed.

Lemma hexPrefix_digits (ds : list Z) :
  Forall isNibble ds -> Js.hexPrefix (map Js.hexDigit ds) = ds.
Proof.
  induction 1 as [|d ds Hd _ IH]; simpl; [reflexivity|].
  rewrite (hexDigit_value d Hd), IH. reflexivity.
Qed.

(** [parseInt] reads a non-empty string of digits back as their number. *)
Lemma parseInt16_digits (d : Z) (ds : list Z) :
  Forall isNibble (d :: ds) ->
  Js.parseInt16 (map Js.hexDigit (d :: ds)) = Some (Js.hexNumber (d :: ds)).
Proof.
  intros Hall. pose proof Hall as Hall'.
  inversion Hall as [|? ? Hd Hds]; subst.
  destruct (hexDigit_not_mark d Hd) as (Hm & Hp & _).
  unfold Js.parseInt16. cbn [map Js.trimStart].
  rewrite (hexDigit_not_space d Hd).
  unfold Js.stripSign. rewrite Hm, Hp.
  assert (Hstrip : Js.stripHexPrefix (Js.hexDigit d :: map Js.hexDigit ds)
                   = map Js.hexDigit (d :: ds)).
  { destruct ds as [|d' ds']; [reflexivity|].
    inversion Hds as [|? ? Hd' _]; subst.
    destruct (hexDigit_not_mark d' Hd') as (_ & _ & Hx & HX).
    cbn [map Js.stripHexPrefix]. rewrite Hx, HX.
    rewrite andb_false_r. reflexivity. }
  rewrite Hstrip, (hexPrefix_digits _ Hall').
  rewrite Z.mul_1_l. reflexivity.
Qed.

(** The first eight digits of a hexadecimal digest are the first 32 bits. *)
Lemma parseInt16_first8 (b0 b1 b2 b3 : Z) (rest : list Z) :
  0 <= b0 < 256 -> 0 <= b1 < 256 -> 0 <= b2 < 256 -> 0 <= b3 < 256 ->
  Js.parseInt16 (Js.substring0 8 (Js.toHex (b0 :: b1 :: b2 :: b3 :: rest)))
  = Some (first32Bits (b0 :: b1 :: b2 :: b3 :: rest)).
Proof.
  intros H0 H1 H2 H3.
  change (Js.substring0 8 (Js.toHex (b0 :: b1 :: b2 :: b3 :: rest)))
    with (map Js.hexDigit [b0 / 16; b0 mod 16; b1 / 16; b1 mod 16;
                           b2 / 16; b2 mod 16; b3 / 16; b3 mod 16]).
  rewrite parseInt16_digits.
  - f_equal. unfold Js.hexNumber, first32Bits. cbn [fold_left].
    pose proof (Z.div_mod b0 16). pose proof (Z.div_mod b1 16).
    pose proof (Z.div_mod b2 16). pose proof (Z.div_mod b3 16).
    change (2 ^ 24) with 16777216. change (2 ^ 16) with 65536.
    change (2 ^ 8) with 256. lia.
  - unfold isNibble.
    repeat constructor;
      try (apply Z.mod_pos_bound; lia);
      try (apply Z.div_pos; lia);
      try (apply Z.div_lt_upper_bound; lia).
Qed.

(** A digest starts with four bytes. *)
Lemma sha256_first4 (msg : list Z) :
  exists b0 b1 b2 b3 rest,
    SHA256.sha256 msg = b0 :: b1 :: b2 :: b3 :: rest
    /\ 0 <= b0 < 256 /\ 0 <= b1 < 256 /\ 0 <= b2 < 256 /\ 0 <= b3 < 256.
Proof.
  unfold SHA256.sha256, SHA256.digestBytes.
  generalize (SHA256.blocks (length (SHA256.pad msg) / 64)
                            (SHA256.pad msg) SHA256.H0).
  intros h. unfold SHA256.bytesOfWord at 1. cbn [app].
  do 5 eexists. split; [reflexivity|].
  repeat split; apply Z.mod_pos_bound; lia.
Qed.

Lemma first32Bits_range (msg : list Z) :
  0 <= first32Bits (SHA256.sha256 msg) < 2 ^ 32.
Proof.
  destruct (sha256_first4 msg) as (b0 & b1 & b2 & b3 & rest & E & ? & ? & ? & ?).
  rewrite E. unfold first32Bits.
  change (2 ^ 24) with 16777216. change (2 ^ 16) with 65536.
  change (2 ^ 8) with 256. change (2 ^ 32) with 4294967296. lia.
Qed.

(* ================================================================== *)
(** ** computeOffset and computeFireTime *)

(** What [computeOffset] does, case by case. *)
Lemma computeOffset_cases (patientId : Js.JsString) (binCount : Z) :
  computeOffset patientId binCount =
  if isBlank patientId then
    Throw (Error "Patient ID is required and cannot be empty")
  else if binCount <=? 0 then
    Throw (Error "Bin count must be a positive integer")
  else Normal (binOf patientId binCount).
Proof.
  unfold computeOffset. rewrite guard_isBlank.
  destruct (isBlank patientId); [reflexivity|].
  destruct (binCount <=? 0) eqn:En; [reflexivity|].
  apply Z.leb_gt in En.
  unfold sha256Hex, binOf.
  pose proof (first32Bits_range (Js.utf8 patientId)) as Hr.
  destruct (sha256_first4 (Js.utf8 patientId))
    as (b0 & b1 & b2 & b3 & rest & E & ? & ? & ? & ?).
  rewrite E in *. rewrite parseInt16_first8 by assumption.
  rewrite Z.rem_mod_nonneg by lia. reflexivity.
Qed.

Lemma binOf_range (identifier : Js.JsString) (binCount : Z) :
  0 < binCount -> 0 <= binOf identifier binCount < binCount.
Proof. intros H. apply Z.mod_pos_bound. exact H. Qed.

Lemma computeOffset_valid (patientId : Js.JsString) (binCount : Z) :
  isBlank patientId = false -> 0 < binCount ->
  computeOffset patientId binCount = Normal (binOf patientId binCount).
Proof.
  intros Hb Hn. rewrite computeOffset_cases, Hb.
  destruct (Z.leb_spec binCount 0); [lia | reflexivity].
Qed.

Lemma computeOffset_blank (patientId : Js.JsString) (binCount : Z) :
  isBlank patientId = true ->
  computeOffset patientId binCount =
  Throw (Error "Patient ID is required and cannot be empty").
Proof. intros Hb. rewrite computeOffset_cases, Hb. reflexivity. Qed.

Lemma not_blank_iff (s : Js.JsString) :
  Js.trim s <> [] <-> isBlank s = false.
Proof.
  rewrite trim_nil_iff. destruct (isBlank s); split; congruence.
Qed.

(** C1.  For an identifier that is not empty after trimming and a positive
    [binCount], [computeOffset] returns the unsigned 32-bit integer made of
    the first four bytes (most significant first) of the SHA-256 digest of
    the identifier, reduced modulo [binCount].  The right-hand side mentions
    the identifier and the bin count only, so the result is the same at
    every call. *)
Theorem computeOffset_digest_prefix (identifier : Js.JsString) (binCount : Z) :
  Js.trim identifier <> [] -> 0 < binCount ->
  computeOffset identifier binCount
  = Normal (first32Bits (SHA256.sha256 (Js.utf8 identifier)) mod binCount)
  /\ 0 <= first32Bits (SHA256.sha256 (Js.utf8 identifier)) < 2 ^ 32.
Proof.
  intros Hid Hn. split.
  - apply computeOffset_valid; [apply not_blank_iff; exact Hid | exact Hn].
  - apply first32Bits_range.
Qed.

Lemma computeOffset_digest_prefix_witness :
  computeOffset (Js.lit "patient-123") 300
  = Normal (first32Bits (SHA256.sha256 (Js.utf8 (Js.lit "patient-123")))
            mod 300)
  /\ 0 <= first32Bits (SHA256.sha256 (Js.utf8 (Js.lit "patient-123")))
     < 2 ^ 32.
Proof.
  apply (computeOffset_digest_prefix (Js.lit "patient-123") 300).
  - vm_compute. discriminate.
  - lia.
Defined.

(** C2.  For an identifier that is not empty after trimming and a positive
    [n], [computeOffset] returns an integer [v] with [0 <= v < n]. *)
Theorem computeOffset_range (x : Js.JsString) (n : Z) :
  Js.trim x <> [] -> 0 < n ->
  exists v, computeOffset x n = Normal v /\ 0 <= v < n.
Proof.
  intros Hx Hn. exists (binOf x n). split.
  - apply computeOffset_valid; [apply not_blank_iff; exact Hx | exact Hn].
  - apply binOf_range. exact Hn.
Qed.

Lemma computeOffset_range_witness :
  exists v, computeOffset (Js.lit "patient-1") 60 = Normal v /\ 0 <= v < 60.
Proof.
  apply (computeOffset_range (Js.lit "patient-1") 60).
  - vm_compute. discriminate.
  - lia.
Defined.

Lemma newDate_valid (t : Z) : inDateRange t -> newDate t = ValidDate t.
Proof.
  unfold inDateRange, newDate. intros H.
  destruct (Z.leb_spec (Z.abs t) MAX_TIME); [reflexivity | lia].
Qed.

Lemma newDate_invalid (t : Z) : MAX_TIME < t -> newDate t = InvalidDate.
Proof.
  unfold newDate. intros H.
  destruct (Z.leb_spec (Z.abs t) MAX_TIME); [lia | reflexivity].
Qed.

Lemma computeFireTime_valid (patientId : Js.JsString) (cycleStart : Date)
    (binCount : Z) :
  isBlank patientId = false -> 0 < binCount ->
  computeFireTime patientId cycleStart binCount
  = Normal (fireDate cycleStart (binOf patientId binCount)).
Proof.
  intros Hid Hn. unfold computeFireTime.
  rewrite (computeOffset_valid patientId binCount Hid Hn). cbn [bind].
  destruct cycleStart; reflexivity.
Qed.

(** C4 (amended).  For a valid identifier and bin count and for cycle
    starts [c] and [c + I] seconds that are valid dates, both fire times
    are returned: the dates of the cycle start plus the offset, which is
    the same in both cycles.  Whenever both fire times are within the range
    of dates they differ by exactly [I] seconds (times are in
    milliseconds); when the later one lies beyond the range it is an
    Invalid Date and the difference is NaN. *)
Theorem computeFireTime_no_gap (identifier : Js.JsString) (binCount : Z)
    (c I : Z) :
  Js.trim identifier <> [] -> 0 < binCount ->
  inDateRange c -> inDateRange (c + I * 1000) ->
  exists offset fire1 fire2,
    0 <= offset < binCount
    /\ computeFireTime identifier (ValidDate c) binCount = Normal fire1
    /\ computeFireTime identifier (ValidDate (c + I * 1000)) binCount
       = Normal fire2
    /\ fire1 = newDate (c + offset * 1000)
    /\ fire2 = newDate (c + I * 1000 + offset * 1000)
    /\ (c + offset * 1000 <= MAX_TIME ->
        c + I * 1000 + offset * 1000 <= MAX_TIME ->
        millisecondsBetween fire1 fire2 = Some (I * 1000))
    /\ (MAX_TIME < c + I * 1000 + offset * 1000 ->
        fire2 = InvalidDate /\ millisecondsBetween fire1 fire2 = None).
Proof.
  intros Hid Hn Hc HcI. apply not_blank_iff in Hid.
  pose proof (binOf_range identifier binCount Hn) as Hoff.
  exists (binOf identifier binCount). do 2 eexists.
  split; [exact Hoff|].
  rewrite !(computeFireTime_valid identifier _ binCount Hid Hn).
  cbn [fireDate]. split; [reflexivity|]. split; [reflexivity|].
  split; [reflexivity|]. split; [reflexivity|].
  generalize dependent (binOf identifier binCount). intros off Hoff.
  unfold inDateRange in *. split.
  - intros H1 H2.
    rewrite !newDate_valid by (unfold inDateRange; lia).
    cbn [millisecondsBetween getTime]. f_equal. lia.
  - intros H. rewrite (newDate_invalid _ H). split; [reflexivity|].
    unfold millisecondsBetween. cbn [getTime]. reflexivity.
Qed.

Lemma computeFireTime_no_gap_witness :
  exists fire1 fire2,
    computeFireTime (Js.lit "patient-nogap-test")
                    (ValidDate 1768903200000) 300 = Normal fire1
    /\ computeFireTime (Js.lit "patient-nogap-test")
                       (ValidDate (1768903200000 + 300 * 1000)) 300
       = Normal fire2
    /\ millisecondsBetween fire1 fire2 = Some (300 * 1000).
Proof.
  assert (Hid : Js.trim (Js.lit "patient-nogap-test") <> [])
    by (vm_compute; discriminate).
  assert (Hn : 0 < 300) by lia.
  assert (Hc : inDateRange 1768903200000)
    by (unfold inDateRange, MAX_TIME; lia).
  assert (HcI : inDateRange (1768903200000 + 300 * 1000))
    by (unfold inDateRange, MAX_TIME; lia).
  destruct (computeFireTime_no_gap (Js.lit "patient-nogap-test") 300
              1768903200000 300 Hid Hn Hc HcI)
    as (offset & fire1 & fire2 & Hoff & H1 & H2 & _ & _ & Hgap & _).
  exists fire1, fire2. split; [exact H1|]. split; [exact H2|].
  apply Hgap; unfold MAX_TIME; lia.
Defined.

(** At the end of the range of dates the next cycle's fire time is an
    Invalid Date, so the two fire times have no difference of 300 s. *)
Lemma fire_time_gap_lost_at_range_end :
  computeFireTime (Js.lit "patient-123") (ValidDate 8639999999700000) 300
  = Normal (ValidDate 8639999999853000)
  /\ computeFireTime (Js.lit "patient-123")
                     (ValidDate (8639999999700000 + 300 * 1000)) 300
     = Normal InvalidDate
  /\ millisecondsBetween (ValidDate 8639999999853000) InvalidDate = None.
Proof. repeat split; vm_compute; reflexivity. Qed.

(** C7.  [computeOffset] throws exactly when the identifier is empty or
    white space only, or [binCount <= 0]; it returns a value exactly when
    the identifier is not empty after trimming and [binCount] is positive,
    whatever the code units of the identifier are. *)
Theorem computeOffset_throws_iff (identifier : Js.JsString) (binCount : Z) :
  (throws (computeOffset identifier binCount)
   <-> isBlank identifier = true \/ binCount <= 0)
  /\ (returns (computeOffset identifier binCount)
      <-> Js.trim identifier <> [] /\ 0 < binCount).
Proof.
  rewrite not_blank_iff, computeOffset_cases. unfold throws, returns.
  destruct (isBlank identifier).
  - split; split.
    + intros _. left. reflexivity.
    + intros _. eexists. reflexivity.
    + intros [a H]. discriminate H.
    + intros [H _]. discriminate H.
  - destruct (Z.leb_spec binCount 0) as [Hn|Hn]; split; split.
    + intros _. right. exact Hn.
    + intros _. eexists. reflexivity.
    + intros [a H]. discriminate H.
    + intros [_ H]. lia.
    + intros [e H]. discriminate H.
    + intros [H|H]; [discriminate H | lia].
    + intros _. split; [reflexivity | exact Hn].
    + intros _. eexists. reflexivity.
Qed.

(* ================================================================== *)
(** ** Construction *)

Lemma constructor_cases (config : TaskGeneratorConfig.t) :
  let i := effectiveInterval config in
  let b := effectiveBinCount config in
  (i <= 0 /\ throws (TaskGenerator.constructor config))
  \/ (0 < i /\ b <= 0 /\ throws (TaskGenerator.constructor config))
  \/ (0 < i /\ 0 < b /\ i < b /\ throws (TaskGenerator.constructor config))
  \/ (0 < i /\ 0 < b /\ b <= i
      /\ TaskGenerator.constructor config = Normal (TaskGenerator.Make i b)).
Proof.
  unfold effectiveInterval, effectiveBinCount, TaskGenerator.constructor,
    nullish, throws, SCRAPE_INTERVAL_SECONDS, DEFAULT_BIN_COUNT.
  cbn [TaskGenerator.intervalSeconds TaskGenerator.binCount].
  set (i := match TaskGeneratorConfig.intervalSeconds config with
            | Some v => v | None => 300 end).
  set (b := match TaskGeneratorConfig.binCount config with
            | Some v => v | None => 300 end).
  cbv zeta.
  destruct (Z.leb_spec i 0) as [Hi|Hi].
  { left. split; [exact Hi | eexists; reflexivity]. }
  destruct (Z.leb_spec b 0) as [Hb|Hb].
  { right. left. repeat split; try assumption. eexists; reflexivity. }
  destruct (Z.gtb_spec b i) as [Hg|Hg].
  { right. right. left. repeat split; try assumption. eexists; reflexivity. }
  right. right. right. repeat split; assumption.
Qed.

Lemma constructor_normal (config : TaskGeneratorConfig.t)
    (g : TaskGenerator.t) :
  TaskGenerator.constructor config = Normal g ->
  0 < TaskGenerator.binCount g
  /\ TaskGenerator.binCount g <= TaskGenerator.intervalSeconds g.
Proof.
  intros H.
  destruct (constructor_cases config)
    as [(_ & [e E]) | [(_ & _ & [e E]) | [(_ & _ & _ & [e E]) | (_ & Hb & Hle & E)]]];
    rewrite E in H; try discriminate H.
  injection H as <-. cbn. split; assumption.
Qed.

(** C6.  Construction throws exactly when, after the defaults (300 and
    300), [intervalSeconds <= 0], or [binCount <= 0], or
    [binCount > intervalSeconds]; otherwise it returns the generator with
    the effective configuration, and a construction that throws returns no
    generator.  The three configurations of the test-suite throw. *)
Theorem constructor_throws_iff (config : TaskGeneratorConfig.t) :
  (throws (TaskGenerator.constructor config)
   <-> effectiveInterval config <= 0
       \/ effectiveBinCount config <= 0
       \/ effectiveBinCount config > effectiveInterval config)
  /\ (returns (TaskGenerator.constructor config)
      <-> TaskGenerator.constructor config
          = Normal (TaskGenerator.Make (effectiveInterval config)
                                       (effectiveBinCount config)))
  /\ (throws (TaskGenerator.constructor config)
      -> forall g, TaskGenerator.constructor config <> Normal g)
  /\ throws (TaskGenerator.constructor
               (TaskGeneratorConfig.Make (Some 0) None))
  /\ throws (TaskGenerator.constructor
               (TaskGeneratorConfig.Make None (Some 0)))
  /\ throws (TaskGenerator.constructor
               (TaskGeneratorConfig.Make (Some 60) (Some 120))).
Proof.
  split; [|split; [|split]].
  - destruct (constructor_cases config)
      as [(Hi & T) | [(Hi & Hb & T) | [(Hi & Hb & Hg & T) | (Hi & Hb & Hle & E)]]].
    + split; [intros _; left; exact Hi | intros _; exact T].
    + split; [intros _; right; left; exact Hb | intros _; exact T].
    + split; [intros _; right; right; lia | intros _; exact T].
    + split.
      * intros [e He]. rewrite E in He. discriminate He.
      * intros [H|[H|H]]; lia.
  - split.
    + intros [g Hg].
      destruct (constructor_cases config)
        as [(_ & [e E]) | [(_ & _ & [e E]) | [(_ & _ & _ & [e E]) | (_ & _ & _ & E)]]];
        try (rewrite E in Hg; discriminate Hg).
      exact E.
    + intros E. eexists. exact E.
  - intros [e He] g Hg. rewrite He in Hg. discriminate Hg.
  - repeat split; eexists; reflexivity.
Qed.

(* ================================================================== *)
(** ** Maps and bin counts *)

Lemma orElse_zero (x : option Z) :
  orElse x 0 = match x with Some v => v | None => 0 end.
Proof.
  destruct x as [v|]; simpl; [|reflexivity].
  destruct (Z.eqb_spec v 0); congruence.
Qed.

Lemma get_set (m : JsMap.t) (k v k' : Z) :
  JsMap.get (JsMap.set m k v) k' = if k =? k' then Some v else JsMap.get m k'.
Proof.
  induction m as [|[k0 v0] r IH]; simpl.
  - reflexivity.
  - destruct (Z.eqb_spec k0 k) as [->|Hne]; simpl.
    + destruct (Z.eqb_spec k k'); reflexivity.
    + rewrite IH. destruct (Z.eqb_spec k0 k') as [->|Hne'].
      * destruct (Z.eqb_spec k k'); [congruence | reflexivity].
      * reflexivity.
Qed.

Lemma keys_set_present (m : JsMap.t) (k v : Z) :
  In k (JsMap.keys m) -> JsMap.keys (JsMap.set m k v) = JsMap.keys m.
Proof.
  unfold JsMap.keys. induction m as [|[k0 v0] r IH]; simpl.
  - contradiction.
  - intros Hin. destruct (Z.eqb_spec k0 k) as [->|Hne]; simpl.
    + reflexivity.
    + f_equal. apply IH. destruct Hin; [contradiction | assumption].
Qed.

Lemma keys_set_absent (m : JsMap.t) (k v : Z) :
  ~ In k (JsMap.keys m) -> JsMap.keys (JsMap.set m k v) = JsMap.keys m ++ [k].
Proof.
  unfold JsMap.keys. induction m as [|[k0 v0] r IH]; simpl.
  - reflexivity.
  - intros Hin. destruct (Z.eqb_spec k0 k) as [->|Hne]; simpl.
    + exfalso. apply Hin. left. reflexivity.
    + f_equal. apply IH. intros H. apply Hin. right. exact H.
Qed.

Lemma get_absent (m : JsMap.t) (k : Z) :
  ~ In k (JsMap.keys m) -> JsMap.get m k = None.
Proof.
  unfold JsMap.keys. induction m as [|[k0 v0] r IH]; simpl.
  - reflexivity.
  - intros Hin. destruct (Z.eqb_spec k0 k) as [->|Hne].
    + exfalso. apply Hin. left. reflexivity.
    + apply IH. intros H. apply Hin. right. exact H.
Qed.

(** With distinct keys, the values are the keys looked up one by one. *)
Lemma values_by_keys (m : JsMap.t) :
  NoDup (JsMap.keys m) ->
  map Some (JsMap.values m) = map (JsMap.get m) (JsMap.keys m).
Proof.
  unfold JsMap.keys, JsMap.values.
  induction m as [|[k0 v0] r IH]; simpl; intros Hnd.
  - reflexivity.
  - inversion Hnd as [|? ? Hnotin Hnd']; subst.
    rewrite Z.eqb_refl. f_equal. rewrite (IH Hnd').
    apply map_ext_in. intros k Hk.
    destruct (Z.eqb_spec k0 k) as [->|Hne]; [contradiction | reflexivity].
Qed.

(** The seeding loop appends the keys [i, i+1, ...] with the value 0. *)
Lemma seedBins_keys (n : nat) (i : Z) (m : JsMap.t) :
  (forall k, In k (JsMap.keys m) -> k < i) ->
  JsMap.keys (seedBins n i m)
  = JsMap.keys m ++ map (fun j => i + Z.of_nat j) (seq 0 n).
Proof.
  revert i m. induction n as [|n IH]; intros i m Hlt.
  - simpl. rewrite app_nil_r. reflexivity.
  - cbn [seedBins]. rewrite IH.
    + rewrite keys_set_absent.
      * rewrite <- app_assoc. f_equal. cbn [seq map app].
        rewrite Z.add_0_r. f_equal.
        rewrite <- seq_shift, map_map. apply map_ext. intros j. lia.
      * intros H. apply Hlt in H. lia.
    + intros k Hk. rewrite keys_set_absent in Hk.
      * apply in_app_or in Hk. destruct Hk as [Hk|[<-|[]]].
        -- apply Hlt in Hk. lia.
        -- lia.
      * intros H. apply Hlt in H. lia.
Qed.

Lemma seedBins_get (n : nat) (i : Z) (m : JsMap.t) (b : Z) :
  JsMap.get (seedBins n i m) b
  = if (i <=? b) && (b <? i + Z.of_nat n) then Some 0 else JsMap.get m b.
Proof.
  revert i m. induction n as [|n IH]; intros i m.
  - simpl. destruct (Z.leb_spec i b), (Z.ltb_spec b (i + 0));
      simpl; try reflexivity; lia.
  - cbn [seedBins]. rewrite IH, get_set.
    destruct (Z.leb_spec (i + 1) b), (Z.ltb_spec b (i + 1 + Z.of_nat n)),
      (Z.leb_spec i b), (Z.ltb_spec b (i + Z.of_nat (S n))),
      (Z.eqb_spec i b); simpl; try reflexivity; lia.
Qed.

Lemma initBins_keys (binCount : Z) :
  JsMap.keys (initBins binCount) = binIndices binCount.
Proof.
  unfold initBins, binIndices. rewrite seedBins_keys.
  - simpl. apply map_ext. intros j. lia.
  - intros k [].
Qed.

Lemma initBins_get (binCount b : Z) :
  0 <= b < binCount -> JsMap.get (initBins binCount) b = Some 0.
Proof.
  intros Hb. unfold initBins. rewrite seedBins_get.
  destruct (Z.leb_spec 0 b), (Z.ltb_spec b (0 + Z.of_nat (Z.to_nat binCount)));
    simpl; try reflexivity; lia.
Qed.

Lemma in_binIndices (binCount b : Z) :
  In b (binIndices binCount) <-> 0 <= b < binCount.
Proof.
  unfold binIndices. rewrite in_map_iff. split.
  - intros (j & <- & Hj). apply in_seq in Hj. lia.
  - intros Hb. exists (Z.to_nat b). split; [lia|]. apply in_seq. lia.
Qed.

Lemma binIndices_NoDup (binCount : Z) : NoDup (binIndices binCount).
Proof.
  unfold binIndices. apply NoDup_map_inv with (f := Z.to_nat).
  rewrite map_map. erewrite map_ext; [rewrite map_id; apply seq_NoDup|].
  intros j. simpl. apply Nat2Z.id.
Qed.

Lemma binIndices_length (binCount : Z) :
  length (binIndices binCount) = Z.to_nat binCount.
Proof. unfold binIndices. rewrite length_map, length_seq. reflexivity. Qed.

Lemma bump_keys (bins : JsMap.t) (offset : Z) :
  In offset (JsMap.keys bins) -> JsMap.keys (bump bins offset) = JsMap.keys bins.
Proof. intros H. apply keys_set_present. exact H. Qed.

Lemma bump_get (bins : JsMap.t) (offset b : Z) :
  JsMap.get (bump bins offset) b
  = if offset =? b
    then Some (match JsMap.get bins offset with Some v => v | None => 0 end + 1)
    else JsMap.get bins b.
Proof. unfold bump. rewrite get_set, orElse_zero. reflexivity. Qed.

Lemma population_cons (o : Z) (offsets : list Z) (b : Z) :
  population (o :: offsets) b
  = (if o =? b then 1 else 0) + population offsets b.
Proof.
  unfold population. cbn [filter]. destruct (o =? b); cbn [length]; lia.
Qed.

Lemma population_app (l1 l2 : list Z) (b : Z) :
  population (l1 ++ l2) b = population l1 b + population l2 b.
Proof.
  unfold population. rewrite filter_app, length_app. lia.
Qed.

Lemma population_nonneg (offsets : list Z) (b : Z) : 0 <= population offsets b.
Proof. unfold population. lia. Qed.

(** Counting a list of offsets that are all bins of the map. *)
Lemma bumpAll_keys (offsets : list Z) (bins : JsMap.t) :
  Forall (fun o => In o (JsMap.keys bins)) offsets ->
  JsMap.keys (bumpAll offsets bins) = JsMap.keys bins.
Proof.
  unfold bumpAll. revert bins.
  induction offsets as [|o r IH]; intros bins Hall; simpl.
  - reflexivity.
  - inversion Hall as [|? ? Ho Hr]; subst.
    rewrite IH.
    + apply bump_keys. exact Ho.
    + rewrite bump_keys by exact Ho. exact Hr.
Qed.

Lemma bumpAll_get (offsets : list Z) (bins : JsMap.t) (b v : Z) :
  JsMap.get bins b = Some v ->
  JsMap.get (bumpAll offsets bins) b = Some (v + population offsets b).
Proof.
  unfold bumpAll. revert bins v.
  induction offsets as [|o r IH]; intros bins v Hget; simpl.
  - unfold population. simpl. rewrite Z.add_0_r. exact Hget.
  - rewrite population_cons.
    destruct (Z.eqb_spec o b) as [->|Hne].
    + rewrite (IH (bump bins b) (v + 1)).
      * f_equal. lia.
      * rewrite bump_get, Z.eqb_refl, Hget. reflexivity.
    + rewrite (IH (bump bins o) v).
      * f_equal.
      * rewrite bump_get. destruct (Z.eqb_spec o b); [contradiction|].
        exact Hget.
Qed.

(** The histogram of a list of offsets in [0, binCount). *)
Lemma histogram_keys (offsets : list Z) (binCount : Z) :
  Forall (fun o => 0 <= o < binCount) offsets ->
  JsMap.keys (bumpAll offsets (initBins binCount)) = binIndices binCount.
Proof.
  intros Hall. rewrite bumpAll_keys.
  - apply initBins_keys.
  - rewrite initBins_keys. revert Hall. apply Forall_impl.
    intros o Ho. apply in_binIndices. exact Ho.
Qed.

Lemma histogram_get (offsets : list Z) (binCount b : Z) :
  0 <= b < binCount ->
  JsMap.get (bumpAll offsets (initBins binCount)) b
  = Some (population offsets b).
Proof.
  intros Hb. rewrite (bumpAll_get offsets _ b 0).
  - reflexivity.
  - apply initBins_get. exact Hb.
Qed.

Lemma histogram_values (offsets : list Z) (binCount : Z) :
  Forall (fun o => 0 <= o < binCount) offsets ->
  JsMap.values (bumpAll offsets (initBins binCount))
  = map (population offsets) (binIndices binCount).
Proof.
  intros Hall.
  assert (Hinj : forall l1 l2 : list Z, map Some l1 = map Some l2 -> l1 = l2).
  { induction l1 as [|a l1 IH]; intros [|b l2] H; simpl in H;
      try discriminate; [reflexivity|].
    injection H as -> H. f_equal. apply IH. exact H. }
  apply Hinj. rewrite values_by_keys.
  - rewrite (histogram_keys offsets binCount Hall), map_map.
    apply map_ext_in. intros b Hb. apply histogram_get.
    apply in_binIndices. exact Hb.
  - rewrite (histogram_keys offsets binCount Hall). apply binIndices_NoDup.
Qed.

(* ================================================================== *)
(** ** The batch loop *)

Section Batch.

Variable uuids : nat -> Js.JsString.
Variable clock : nat -> Z.
Variable g : TaskGenerator.t.
Hypothesis binCount_pos : 0 < TaskGenerator.binCount g.

Local Abbreviation n := (TaskGenerator.binCount g).

Lemma generateTaskForPatient_valid (patient : PatientInput.t)
    (cycleStart : Date) (w : World) :
  isValidRecord patient = true ->
  TaskGenerator.generateTaskForPatient uuids clock g patient cycleStart w
  = (Normal (taskOf uuids clock n patient cycleStart w), afterTask w).
Proof.
  unfold isValidRecord. intros Hv. apply negb_true_iff in Hv.
  unfold TaskGenerator.generateTaskForPatient.
  destruct (PatientInput.id patient) as [|c r] eqn:Eid; [discriminate Hv|].
  cbn [Js.falsy]. unfold bindM, lift, computeFireTime.
  rewrite (computeOffset_valid (c :: r) n Hv binCount_pos).
  unfold taskOf. rewrite Eid. destruct cycleStart; reflexivity.
Qed.

Lemma generateTaskForPatient_invalid (patient : PatientInput.t)
    (cycleStart : Date) (w : World) :
  isValidRecord patient = false ->
  TaskGenerator.generateTaskForPatient uuids clock g patient cycleStart w
  = (Throw (rejection patient), w).
Proof.
  unfold isValidRecord. intros Hv. apply negb_false_iff in Hv.
  unfold TaskGenerator.generateTaskForPatient, rejection.
  destruct (Js.falsy (PatientInput.id patient)); [reflexivity|].
  unfold bindM, lift.
  rewrite (computeOffset_blank _ n Hv). reflexivity.
Qed.

Lemma forEachPatient_loopResult (patients : list PatientInput.t)
    (cycleStart : Date) (tasks : list ScrapeTask.t) (bins : JsMap.t)
    (w : World) :
  TaskGenerator.forEachPatient uuids clock g patients cycleStart tasks bins w
  = (Normal (fst (loopResult uuids clock n patients cycleStart tasks bins w)),
     snd (loopResult uuids clock n patients cycleStart tasks bins w)).
Proof.
  revert tasks bins w.
  induction patients as [|patient rest IH]; intros tasks bins w.
  - reflexivity.
  - cbn [TaskGenerator.forEachPatient loopResult].
    unfold bindM at 1. unfold tryCatch. unfold bindM at 1.
    destruct (isValidRecord patient) eqn:Ev.
    + rewrite (generateTaskForPatient_valid patient cycleStart w Ev).
      unfold ret. cbn [fst snd]. apply IH.
    + rewrite (generateTaskForPatient_invalid patient cycleStart w Ev).
      unfold bindM, TaskGenerator.consoleError, ret. cbn [fst snd].
      apply IH.
Qed.

(** The batch call, in one step. *)
Lemma generateTasksForPatients_run (patients : list PatientInput.t)
    (cycleStart : Date) (w : World) :
  let w1 := MkWorld (uuidCalls w) (S (clockReads w)) (console w) in
  let r := loopResult uuids clock n patients cycleStart [] (initBins n) w1 in
  TaskGenerator.generateTasksForPatients uuids clock g patients cycleStart w
  = (Normal (TaskGenerationResult.Make (fst (fst r))
               (Stats.Make (Z.of_nat (length patients))
                           (Z.of_nat (length (fst (fst r))))
                           (snd (fst r))
                           (clock (clockReads (snd r))
                            - clock (clockReads w)))),
     MkWorld (uuidCalls (snd r)) (S (clockReads (snd r))) (console (snd r))).
Proof.
  cbv zeta. unfold TaskGenerator.generateTasksForPatients.
  unfold bindM at 1. unfold TaskGenerator.now at 1. cbv beta iota.
  unfold bindM at 1. rewrite forEachPatient_loopResult.
  reflexivity.
Qed.

End Batch.

(** What the loop leaves in its accumulators. *)
Section LoopResult.

Variable uuids : nat -> Js.JsString.
Variable clock : nat -> Z.
Variable n : Z.
Variable cycleStart : Date.

Local Abbreviation run := (loopResult uuids clock n).

Lemma loop_patientIds (patients : list PatientInput.t)
    (tasks : list ScrapeTask.t) (bins : JsMap.t) (w : World) :
  map ScrapeTask.patientId (fst (fst (run patients cycleStart tasks bins w)))
  = map ScrapeTask.patientId tasks
      ++ map PatientInput.id (filter isValidRecord patients).
Proof.
  revert tasks bins w.
  induction patients as [|p rest IH]; intros tasks bins w;
    cbn [loopResult filter].
  - cbn. rewrite app_nil_r. reflexivity.
  - destruct (isValidRecord p).
    + rewrite IH, map_app, <- app_assoc. reflexivity.
    + apply IH.
Qed.

Lemma loop_offsets (patients : list PatientInput.t)
    (tasks : list ScrapeTask.t) (bins : JsMap.t) (w : World) :
  map ScrapeTask.offsetSeconds
      (fst (fst (run patients cycleStart tasks bins w)))
  = map ScrapeTask.offsetSeconds tasks ++ validOffsets n patients.
Proof.
  unfold validOffsets. revert tasks bins w.
  induction patients as [|p rest IH]; intros tasks bins w;
    cbn [loopResult filter].
  - cbn. rewrite app_nil_r. reflexivity.
  - destruct (isValidRecord p).
    + rewrite IH, map_app, <- app_assoc. reflexivity.
    + apply IH.
Qed.

Lemma loop_bins (patients : list PatientInput.t)
    (tasks : list ScrapeTask.t) (bins : JsMap.t) (w : World) :
  snd (fst (run patients cycleStart tasks bins w))
  = bumpAll (validOffsets n patients) bins.
Proof.
  unfold validOffsets, bumpAll. revert tasks bins w.
  induction patients as [|p rest IH]; intros tasks bins w;
    cbn [loopResult filter].
  - reflexivity.
  - destruct (isValidRecord p).
    + rewrite IH. reflexivity.
    + apply IH.
Qed.

Lemma loop_Forall (P : ScrapeTask.t -> Prop) (patients : list PatientInput.t)
    (tasks : list ScrapeTask.t) (bins : JsMap.t) (w : World) :
  (forall p w', P (taskOf uuids clock n p cycleStart w')) ->
  Forall P tasks ->
  Forall P (fst (fst (run patients cycleStart tasks bins w))).
Proof.
  intros HP. revert tasks bins w.
  induction patients as [|p rest IH]; intros tasks bins w Hall;
    cbn [loopResult].
  - exact Hall.
  - destruct (isValidRecord p).
    + apply IH. apply Forall_app. split; [exact Hall|].
      constructor; [apply HP | constructor].
    + apply IH. exact Hall.
Qed.

Lemma loop_app (l1 l2 : list PatientInput.t)
    (tasks : list ScrapeTask.t) (bins : JsMap.t) (w : World) :
  run (l1 ++ l2) cycleStart tasks bins w
  = run l2 cycleStart
        (fst (fst (run l1 cycleStart tasks bins w)))
        (snd (fst (run l1 cycleStart tasks bins w)))
        (snd (run l1 cycleStart tasks bins w)).
Proof.
  revert tasks bins w.
  induction l1 as [|p rest IH]; intros tasks bins w; cbn [loopResult app].
  - reflexivity.
  - destruct (isValidRecord p); apply IH.
Qed.

(** The console does not influence the tasks, the counts, or how often the
    identifier source and the clock are used. *)
Lemma loop_console (patients : list PatientInput.t)
    (tasks : list ScrapeTask.t) (bins : JsMap.t) (w1 w2 : World) :
  uuidCalls w1 = uuidCalls w2 -> clockReads w1 = clockReads w2 ->
  fst (run patients cycleStart tasks bins w1)
  = fst (run patients cycleStart tasks bins w2)
  /\ uuidCalls (snd (run patients cycleStart tasks bins w1))
     = uuidCalls (snd (run patients cycleStart tasks bins w2))
  /\ clockReads (snd (run patients cycleStart tasks bins w1))
     = clockReads (snd (run patients cycleStart tasks bins w2)).
Proof.
  revert tasks bins w1 w2.
  induction patients as [|p rest IH]; intros tasks bins w1 w2 Hu Hc;
    cbn [loopResult].
  - cbn. auto.
  - destruct (isValidRecord p).
    + unfold taskOf. rewrite Hu, Hc. apply IH; cbn; congruence.
    + apply IH; cbn; assumption.
Qed.

End LoopResult.

(* ================================================================== *)
(** ** Properties of generated tasks *)

Lemma taskOf_firesAsScheduled (uuids : nat -> Js.JsString) (clock : nat -> Z)
    (g : TaskGenerator.t) (p : PatientInput.t) (c : Z) (w : World) :
  0 < TaskGenerator.binCount g ->
  TaskGenerator.binCount g <= TaskGenerator.intervalSeconds g ->
  inDateRange c ->
  firesAsScheduled c (TaskGenerator.intervalSeconds g)
    (taskOf uuids clock (TaskGenerator.binCount g) p (ValidDate c) w)
  /\ 0 <= ScrapeTask.offsetSeconds
            (taskOf uuids clock (TaskGenerator.binCount g) p (ValidDate c) w)
     < TaskGenerator.binCount g.
Proof.
  intros Hpos Hle Hc. unfold firesAsScheduled, firesWithinCycle, taskOf.
  cbn [ScrapeTask.fireAt ScrapeTask.offsetSeconds fireDate].
  pose proof (binOf_range (PatientInput.id p) _ Hpos) as Hoff.
  unfold inDateRange in Hc.
  split; [|exact Hoff]. split; [reflexivity|]. split.
  - intros Hmax. eexists. split; [|split; [reflexivity | lia]].
    apply newDate_valid. unfold inDateRange. lia.
  - apply newDate_invalid.
Qed.

(** C3 (amended).  For a generator that construction returned, a record
    whose identifier is not empty after trimming, and a cycle start that is
    a valid date, the [fireAt] of the task returned by
    [generateTaskForPatient] is the date of the cycle start plus
    [offsetSeconds] seconds; whenever that time is within the range of
    dates, [fireAt] is valid and lies in
    [cycleStart, cycleStart + intervalSeconds), and beyond the range it is
    an Invalid Date.  Every task of a batch result has the same property.
    In particular, when the last bin of the cycle is within the range of
    dates, every task of every batch fires within the cycle. *)
Theorem fireAt_within_cycle (uuids : nat -> Js.JsString) (clock : nat -> Z)
    (config : TaskGeneratorConfig.t) (g : TaskGenerator.t)
    (cycleStart : Z) (w : World) :
  TaskGenerator.constructor config = Normal g ->
  inDateRange cycleStart ->
  (forall patient,
      Js.trim (PatientInput.id patient) <> [] ->
      exists task w',
        TaskGenerator.generateTaskForPatient uuids clock g patient
                                             (ValidDate cycleStart) w
        = (Normal task, w')
        /\ firesAsScheduled cycleStart (TaskGenerator.intervalSeconds g)
                            task)
  /\ (forall patients,
        exists result w',
          TaskGenerator.generateTasksForPatients uuids clock g patients
                                                 (ValidDate cycleStart) w
          = (Normal result, w')
          /\ Forall (firesAsScheduled cycleStart
                       (TaskGenerator.intervalSeconds g))
                    (TaskGenerationResult.tasks result)
          /\ (cycleStart + (TaskGenerator.binCount g - 1) * 1000
              <= MAX_TIME ->
              Forall (firesWithinCycle cycleStart
                        (TaskGenerator.intervalSeconds g))
                     (TaskGenerationResult.tasks result))).
Proof.
  intros Hg Hc. destruct (constructor_normal config g Hg) as [Hpos Hle].
  split.
  - intros patient Hid. apply not_blank_iff in Hid.
    rewrite (generateTaskForPatient_valid uuids clock g Hpos).
    + do 2 eexists. split; [reflexivity|].
      apply taskOf_firesAsScheduled; assumption.
    + unfold isValidRecord. rewrite Hid. reflexivity.
  - intros patients.
    rewrite (generateTasksForPatients_run uuids clock g Hpos).
    do 2 eexists. split; [reflexivity|].
    cbn [TaskGenerationResult.tasks].
    assert (Hall :
      Forall (fun task =>
                firesAsScheduled cycleStart
                  (TaskGenerator.intervalSeconds g) task
                /\ 0 <= ScrapeTask.offsetSeconds task
                   < TaskGenerator.binCount g)
             (fst (fst (loopResult uuids clock (TaskGenerator.binCount g)
                          patients (ValidDate cycleStart) []
                          (initBins (TaskGenerator.binCount g))
                          (MkWorld (uuidCalls w) (S (clockReads w))
                                   (console w)))))).
    { apply loop_Forall.
      - intros p w'. apply taskOf_firesAsScheduled; assumption.
      - constructor. }
    split.
    + revert Hall. apply Forall_impl. intros task [H _]. exact H.
    + intros Hlast. revert Hall. apply Forall_impl.
      intros task [(_ & Hin & _) Hoff]. apply Hin. lia.
Qed.

Lemma fireAt_within_cycle_witness :
  (forall patient,
      Js.trim (PatientInput.id patient) <> [] ->
      exists task w',
        TaskGenerator.generateTaskForPatient sampleUuids sampleClock
          defaultGenerator patient (ValidDate 1768903200000) world0
        = (Normal task, w')
        /\ firesAsScheduled 1768903200000 300 task)
  /\ (forall patients,
        exists result w',
          TaskGenerator.generateTasksForPatients sampleUuids sampleClock
            defaultGenerator patients (ValidDate 1768903200000) world0
          = (Normal result, w')
          /\ Forall (firesAsScheduled 1768903200000 300)
                    (TaskGenerationResult.tasks result)
          /\ (1768903200000 + (300 - 1) * 1000 <= MAX_TIME ->
              Forall (firesWithinCycle 1768903200000 300)
                     (TaskGenerationResult.tasks result))).
Proof.
  apply (fireAt_within_cycle sampleUuids sampleClock
           TaskGenerator.emptyConfig defaultGenerator 1768903200000 world0).
  - reflexivity.
  - unfold inDateRange, MAX_TIME. lia.
Defined.

(** At the largest valid date as cycle start, a task with a positive
    offset has an Invalid Date as [fireAt], which lies in no cycle. *)
Lemma fireAt_invalid_at_range_end :
  exists task w',
    TaskGenerator.generateTaskForPatient sampleUuids sampleClock
      defaultGenerator (record "patient-123") (ValidDate 8640000000000000)
      world0
    = (Normal task, w')
    /\ ScrapeTask.offsetSeconds task = 153
    /\ ScrapeTask.fireAt task = InvalidDate.
Proof. do 2 eexists. vm_compute. repeat split; reflexivity. Qed.

(* ================================================================== *)
(** ** Partial failure *)

Lemma filter_length_lt {A : Type} (f : A -> bool) (l : list A) :
  (length (filter f l) < length l)%nat
  <-> exists x, In x l /\ f x = false.
Proof.
  induction l as [|a l IH]; cbn [filter length In].
  - split; [lia | intros (x & [] & _)].
  - pose proof (filter_length_le f l) as Hle.
    destruct (f a) eqn:Ea; cbn [length].
    + rewrite <- Nat.succ_lt_mono, IH. split.
      * intros (x & Hx & Hf). exists x. auto.
      * intros (x & [->|Hx] & Hf); [congruence|]. exists x. auto.
    + split; [|lia]. intros _. exists a. auto.
Qed.

Lemma filter_all {A : Type} (f : A -> bool) (l : list A) :
  forallb f l = true -> filter f l = l.
Proof.
  induction l as [|a l IH]; cbn [forallb filter]; [reflexivity|].
  intros H. apply andb_true_iff in H. destruct H as [Ha Hl].
  rewrite Ha, (IH Hl). reflexivity.
Qed.

(** C5.  For a generator that construction returned, the batch call
    returns for every list of records.  A record makes
    [generateTaskForPatient] throw exactly when it is not valid; the tasks
    are one per valid record, in input order; so there are at most as many
    tasks as records, and fewer exactly when some record is not valid.  A
    batch made of 999 valid records and one record with an empty
    identifier gives 999 tasks. *)
Theorem batch_skips_invalid_records (uuids : nat -> Js.JsString)
    (clock : nat -> Z) (config : TaskGeneratorConfig.t)
    (g : TaskGenerator.t) (patients : list PatientInput.t)
    (cycleStart : Date) (w : World) :
  TaskGenerator.constructor config = Normal g ->
  exists result w',
    TaskGenerator.generateTasksForPatients uuids clock g patients
                                           cycleStart w
    = (Normal result, w')
    /\ (forall p w0,
          throws (fst (TaskGenerator.generateTaskForPatient
                         uuids clock g p cycleStart w0))
          <-> isValidRecord p = false)
    /\ map ScrapeTask.patientId (TaskGenerationResult.tasks result)
       = map PatientInput.id (filter isValidRecord patients)
    /\ (length (TaskGenerationResult.tasks result) <= length patients)%nat
    /\ ((length (TaskGenerationResult.tasks result) < length patients)%nat
        <-> exists p, In p patients /\ isValidRecord p = false)
    /\ Stats.tasksGenerated (TaskGenerationResult.stats result)
       = Z.of_nat (length (TaskGenerationResult.tasks result))
    /\ Stats.totalPatients (TaskGenerationResult.stats result)
       = Z.of_nat (length patients)
    /\ (forall l1 l2 bad,
          patients = l1 ++ bad :: l2 ->
          forallb isValidRecord (l1 ++ l2) = true ->
          length (l1 ++ l2) = 999%nat ->
          PatientInput.id bad = [] ->
          length (TaskGenerationResult.tasks result) = 999%nat).
Proof.
  intros Hg. destruct (constructor_normal config g Hg) as [Hpos _].
  rewrite (generateTasksForPatients_run uuids clock g Hpos).
  do 2 eexists. split; [reflexivity|].
  cbn [TaskGenerationResult.tasks TaskGenerationResult.stats
       Stats.tasksGenerated Stats.totalPatients].
  set (r := loopResult _ _ _ _ _ _ _ _).
  assert (Hids : map ScrapeTask.patientId (fst (fst r))
                 = map PatientInput.id (filter isValidRecord patients))
    by apply loop_patientIds.
  assert (Hlen : length (fst (fst r))
                 = length (filter isValidRecord patients)).
  { rewrite <- (length_map ScrapeTask.patientId), Hids.
    apply length_map. }
  split; [|split; [exact Hids|split; [|split; [|split; [|split]]]]].
  - intros p w0. destruct (isValidRecord p) eqn:Ev.
    + rewrite (generateTaskForPatient_valid uuids clock g Hpos _ _ _ Ev).
      split; [intros [e He]; discriminate He | discriminate].
    + rewrite (generateTaskForPatient_invalid uuids clock g _ _ _ Ev).
      split; [reflexivity | intros _; eexists; reflexivity].
  - rewrite Hlen. apply filter_length_le.
  - rewrite Hlen. apply filter_length_lt.
  - reflexivity.
  - reflexivity.
  - intros l1 l2 bad -> Hall H999 Hbad. rewrite Hlen.
    rewrite filter_app. cbn [filter].
    unfold isValidRecord at 2. rewrite Hbad. cbn [isBlank forallb negb].
    rewrite <- filter_app, (filter_all _ _ Hall). exact H999.
Qed.

Lemma batch_skips_invalid_records_witness :
  exists result w',
    TaskGenerator.generateTasksForPatients sampleUuids sampleClock
      defaultGenerator (validRecords 999 ++ [record ""]) cycle0
      world0
    = (Normal result, w')
    /\ length (TaskGenerationResult.tasks result) = 999%nat.
Proof.
  destruct (batch_skips_invalid_records sampleUuids sampleClock
              TaskGenerator.emptyConfig defaultGenerator
              (validRecords 999 ++ [record ""]) cycle0 world0
              eq_refl)
    as (result & w' & Hrun & _ & _ & _ & _ & _ & _ & H999).
  exists result, w'. split; [exact Hrun|].
  apply (H999 (validRecords 999) [] (record "")).
  - reflexivity.
  - vm_compute. reflexivity.
  - vm_compute. reflexivity.
  - reflexivity.
Defined.

(* ================================================================== *)
(** ** Histograms *)

Lemma validOffsets_range (binCount : Z) (patients : list PatientInput.t) :
  0 < binCount ->
  Forall (fun o => 0 <= o < binCount) (validOffsets binCount patients).
Proof.
  intros Hpos. unfold validOffsets. apply Forall_map, Forall_forall.
  intros p _. apply binOf_range. exact Hpos.
Qed.

Lemma countOffsets_valid (patientIds : list Js.JsString) (binCount : Z)
    (bins : JsMap.t) :
  0 < binCount ->
  Forall (fun i => isBlank i = false) patientIds ->
  countOffsets patientIds binCount bins
  = Normal (bumpAll (map (fun i => binOf i binCount) patientIds) bins).
Proof.
  intros Hpos Hall. revert bins.
  induction Hall as [|i r Hi _ IH]; intros bins; cbn [countOffsets map].
  - reflexivity.
  - rewrite (computeOffset_valid i binCount Hi Hpos). cbn [bind].
    rewrite IH. reflexivity.
Qed.

Lemma countOffsets_normal (patientIds : list Js.JsString) (binCount : Z)
    (bins m : JsMap.t) :
  countOffsets patientIds binCount bins = Normal m ->
  (patientIds = [] \/ 0 < binCount)
  /\ Forall (fun i => isBlank i = false) patientIds.
Proof.
  revert bins. induction patientIds as [|i r IH]; intros bins H.
  - split; [left; reflexivity | constructor].
  - cbn [countOffsets] in H. rewrite computeOffset_cases in H.
    destruct (isBlank i) eqn:Ei; [discriminate H|].
    destruct (Z.leb_spec binCount 0) as [Hn|Hn]; [discriminate H|].
    cbn [bind] in H. apply IH in H. destruct H as [_ Hr].
    split; [right; exact Hn | constructor; assumption].
Qed.

Lemma offsetsOf_valid (patientIds : list Js.JsString) (binCount : Z) :
  0 < binCount ->
  Forall (fun i => isBlank i = false) patientIds ->
  offsetsOf patientIds binCount = map (fun i => binOf i binCount) patientIds.
Proof.
  intros Hpos Hall. unfold offsetsOf.
  induction Hall as [|i r Hi _ IH]; cbn [flat_map map]; [reflexivity|].
  rewrite (computeOffset_valid i binCount Hi Hpos), IH. reflexivity.
Qed.

Lemma offsets_in_range (patientIds : list Js.JsString) (binCount : Z) :
  0 < binCount ->
  Forall (fun o => 0 <= o < binCount)
         (map (fun i => binOf i binCount) patientIds).
Proof.
  intros Hpos. apply Forall_map, Forall_forall.
  intros i _. apply binOf_range. exact Hpos.
Qed.

(** When [analyzeDistribution] returns, every identifier is valid, the bin
    count is positive unless there is no identifier, and the histogram is
    the count of the identifiers' offsets. *)
Lemma analyzeDistribution_normal (patientIds : list Js.JsString)
    (binCount : Z) (d : Distribution.t) :
  analyzeDistribution patientIds binCount = Normal d ->
  (patientIds = [] \/ 0 < binCount)
  /\ Forall (fun i => isBlank i = false) patientIds
  /\ offsetsOf patientIds binCount
     = map (fun i => binOf i binCount) patientIds
  /\ Forall (fun o => 0 <= o < binCount)
            (map (fun i => binOf i binCount) patientIds)
  /\ Distribution.binCounts d
     = bumpAll (map (fun i => binOf i binCount) patientIds)
               (initBins binCount).
Proof.
  unfold analyzeDistribution. intros H.
  destruct (countOffsets patientIds binCount (initBins binCount))
    as [m| |] eqn:Ec; cbn [bind] in H; try discriminate H.
  injection H as <-. cbn [Distribution.binCounts].
  destruct (countOffsets_normal _ _ _ _ Ec) as [Hor Hall].
  split; [exact Hor|]. split; [exact Hall|].
  destruct Hor as [->|Hpos].
  - cbn [countOffsets] in Ec. injection Ec as <-.
    split; [reflexivity|]. split; [constructor | reflexivity].
  - rewrite (countOffsets_valid _ _ _ Hpos Hall) in Ec. injection Ec as <-.
    split; [apply offsetsOf_valid; assumption|].
    split; [apply offsets_in_range; exact Hpos | reflexivity].
Qed.

(** For valid identifiers and a positive bin count, it returns. *)
Lemma analyzeDistribution_returns (patientIds : list Js.JsString)
    (binCount : Z) :
  0 < binCount ->
  Forall (fun i => isBlank i = false) patientIds ->
  returns (analyzeDistribution patientIds binCount).
Proof.
  intros Hpos Hall. unfold analyzeDistribution, returns.
  rewrite (countOffsets_valid _ _ _ Hpos Hall). cbn [bind].
  eexists. reflexivity.
Qed.

(** C8.  The [binDistribution] of a batch result has exactly [binCount]
    entries, its keys are the bin indices [0, ..., binCount - 1], and bin
    [b] holds the number of returned tasks with [offsetSeconds = b].
    [analyzeDistribution] returns for valid identifiers and a positive bin
    count, and whenever it returns its histogram has exactly [binCount]
    entries (none when [binCount] is not positive), one per bin index, bin
    [b] holding the number of input identifiers whose offset is [b]. *)
Theorem binDistribution_complete (uuids : nat -> Js.JsString)
    (clock : nat -> Z) (config : TaskGeneratorConfig.t)
    (g : TaskGenerator.t) (patients : list PatientInput.t)
    (cycleStart : Date) (w : World) :
  TaskGenerator.constructor config = Normal g ->
  (exists result w',
      TaskGenerator.generateTasksForPatients uuids clock g patients
                                             cycleStart w
      = (Normal result, w')
      /\ Z.of_nat (JsMap.size
                     (Stats.binDistribution
                        (TaskGenerationResult.stats result)))
         = TaskGenerator.binCount g
      /\ JsMap.keys (Stats.binDistribution
                       (TaskGenerationResult.stats result))
         = binIndices (TaskGenerator.binCount g)
      /\ forall b,
          0 <= b < TaskGenerator.binCount g ->
          JsMap.get (Stats.binDistribution
                       (TaskGenerationResult.stats result)) b
          = Some (population
                    (map ScrapeTask.offsetSeconds
                         (TaskGenerationResult.tasks result)) b))
  /\ (forall patientIds binCount,
        (0 < binCount ->
         Forall (fun i => Js.trim i <> []) patientIds ->
         returns (analyzeDistribution patientIds binCount))
        /\ forall d,
            analyzeDistribution patientIds binCount = Normal d ->
            Z.of_nat (JsMap.size (Distribution.binCounts d))
            = Z.max 0 binCount
            /\ JsMap.keys (Distribution.binCounts d) = binIndices binCount
            /\ forall b,
                0 <= b < binCount ->
                JsMap.get (Distribution.binCounts d) b
                = Some (population (offsetsOf patientIds binCount) b)).
Proof.
  intros Hg. destruct (constructor_normal config g Hg) as [Hpos _]. split.
  - rewrite (generateTasksForPatients_run uuids clock g Hpos).
    do 2 eexists. split; [reflexivity|].
    cbn [TaskGenerationResult.tasks TaskGenerationResult.stats
         Stats.binDistribution].
    rewrite loop_bins, loop_offsets. cbn [map app].
    pose proof (validOffsets_range _ patients Hpos) as Hrange.
    pose proof (histogram_keys _ _ Hrange) as Hkeys.
    split; [|split; [exact Hkeys|]].
    + unfold JsMap.size.
      rewrite <- (length_map fst). fold (JsMap.keys
        (bumpAll (validOffsets (TaskGenerator.binCount g) patients)
                 (initBins (TaskGenerator.binCount g)))).
      rewrite Hkeys, binIndices_length. lia.
    + intros b Hb. apply histogram_get. exact Hb.
  - intros patientIds binCount. split.
    + intros Hn Hall. apply analyzeDistribution_returns; [exact Hn|].
      revert Hall. apply Forall_impl. intros i. apply not_blank_iff.
    + intros d Hd.
      destruct (analyzeDistribution_normal _ _ _ Hd)
        as (_ & _ & -> & Hrange & ->).
      pose proof (histogram_keys _ _ Hrange) as Hkeys.
      split; [|split; [exact Hkeys|]].
      * unfold JsMap.size. rewrite <- (length_map fst).
        fold (JsMap.keys
                (bumpAll (map (fun i => binOf i binCount) patientIds)
                         (initBins binCount))).
        rewrite Hkeys, binIndices_length. lia.
      * intros b Hb. apply histogram_get. exact Hb.
Qed.

Lemma binDistribution_complete_witness :
  exists result w',
    TaskGenerator.generateTasksForPatients sampleUuids sampleClock
      defaultGenerator [record "patient-123"; record "   "] cycle0
      world0
    = (Normal result, w')
    /\ JsMap.keys (Stats.binDistribution
                     (TaskGenerationResult.stats result))
       = binIndices 300.
Proof.
  destruct (binDistribution_complete sampleUuids sampleClock
              TaskGenerator.emptyConfig defaultGenerator
              [record "patient-123"; record "   "] cycle0 world0
              eq_refl)
    as ((result & w' & Hrun & _ & Hkeys & _) & _).
  exists result, w'. split; [exact Hrun | exact Hkeys].
Defined.

(* ================================================================== *)
(** ** Identifiers made of white space *)

(** A record that is not valid leaves the tasks, the counts and the use of
    the identifier source and the clock as they are without it. *)
Lemma loop_drop_invalid (uuids : nat -> Js.JsString) (clock : nat -> Z)
    (n : Z) (cycleStart : Date) (pre post : list PatientInput.t)
    (x : PatientInput.t) (tasks : list ScrapeTask.t) (bins : JsMap.t)
    (w : World) :
  isValidRecord x = false ->
  fst (loopResult uuids clock n (pre ++ x :: post) cycleStart tasks bins w)
  = fst (loopResult uuids clock n (pre ++ post) cycleStart tasks bins w)
  /\ clockReads
       (snd (loopResult uuids clock n (pre ++ x :: post) cycleStart
                        tasks bins w))
     = clockReads
         (snd (loopResult uuids clock n (pre ++ post) cycleStart
                          tasks bins w)).
Proof.
  intros Hx. rewrite !loop_app. cbn [loopResult]. rewrite Hx.
  match goal with
  | |- context [loopResult _ _ _ post _ ?t ?b (afterSkip x ?w1)] =>
    destruct (loop_console uuids clock n cycleStart post t b
                (afterSkip x w1) w1 eq_refl eq_refl) as (Hf & _ & Hc)
  end.
  split; assumption.
Qed.

(** C10.  Let a record have an identifier that is not empty but consists
    of white space only.  The guard of the generator lets it pass,
    [computeOffset] throws, and so does [generateTaskForPatient].  A batch
    containing the record returns; its tasks and bin counts are those of
    the batch without the record, it counts the record in [totalPatients]
    and not in [tasksGenerated], and its result is the one obtained with an
    empty identifier in place of the white space. *)
Theorem whitespace_id_is_skipped (uuids : nat -> Js.JsString)
    (clock : nat -> Z) (config : TaskGeneratorConfig.t)
    (g : TaskGenerator.t) (pre post : list PatientInput.t)
    (r : PatientInput.t) (cycleStart : Date) (w : World) :
  TaskGenerator.constructor config = Normal g ->
  PatientInput.id r <> [] ->
  isBlank (PatientInput.id r) = true ->
  Js.falsy (PatientInput.id r) = false
  /\ computeOffset (PatientInput.id r) (TaskGenerator.binCount g)
     = Throw (Error "Patient ID is required and cannot be empty")
  /\ (forall w0,
        TaskGenerator.generateTaskForPatient uuids clock g r cycleStart w0
        = (Throw (Error "Patient ID is required and cannot be empty"), w0))
  /\ exists result w' without w'',
      TaskGenerator.generateTasksForPatients uuids clock g
        (pre ++ r :: post) cycleStart w = (Normal result, w')
      /\ TaskGenerator.generateTasksForPatients uuids clock g
           (pre ++ post) cycleStart w = (Normal without, w'')
      /\ TaskGenerationResult.tasks result
         = TaskGenerationResult.tasks without
      /\ Stats.binDistribution (TaskGenerationResult.stats result)
         = Stats.binDistribution (TaskGenerationResult.stats without)
      /\ Stats.tasksGenerated (TaskGenerationResult.stats result)
         = Stats.tasksGenerated (TaskGenerationResult.stats without)
      /\ Stats.totalPatients (TaskGenerationResult.stats result)
         = Stats.totalPatients (TaskGenerationResult.stats without) + 1
      /\ Stats.tasksGenerated (TaskGenerationResult.stats result)
         < Stats.totalPatients (TaskGenerationResult.stats result)
      /\ forall r0 : PatientInput.t,
          PatientInput.id r0 = [] ->
          exists w1,
            TaskGenerator.generateTasksForPatients uuids clock g
              (pre ++ r0 :: post) cycleStart w = (Normal result, w1).
Proof.
  intros Hg Hne Hblank.
  destruct (constructor_normal config g Hg) as [Hpos _].
  assert (Hinv : isValidRecord r = false).
  { unfold isValidRecord. rewrite Hblank. reflexivity. }
  assert (Hfalsy : Js.falsy (PatientInput.id r) = false).
  { destruct (PatientInput.id r); [contradiction | reflexivity]. }
  split; [exact Hfalsy|].
  split; [apply computeOffset_blank; exact Hblank|].
  split.
  { intros w0.
    rewrite (generateTaskForPatient_invalid uuids clock g _ _ _ Hinv).
    unfold rejection. rewrite Hfalsy. reflexivity. }
  rewrite !(generateTasksForPatients_run uuids clock g Hpos).
  do 4 eexists. split; [reflexivity|]. split; [reflexivity|].
  cbn [TaskGenerationResult.tasks TaskGenerationResult.stats
       Stats.binDistribution Stats.tasksGenerated Stats.totalPatients].
  set (w1 := MkWorld (uuidCalls w) (S (clockReads w)) (console w)).
  set (n := TaskGenerator.binCount g).
  destruct (loop_drop_invalid uuids clock n cycleStart pre post r []
              (initBins n) w1 Hinv) as [Hfst Hclk].
  rewrite Hfst.
  split; [reflexivity|]. split; [reflexivity|]. split; [reflexivity|].
  split; [rewrite !length_app; cbn [length]; lia|].
  split.
  { set (r' := loopResult uuids clock n (pre ++ post) cycleStart []
                          (initBins n) w1).
    assert (Hlen : length (fst (fst r'))
                   = length (filter isValidRecord (pre ++ post))).
    { rewrite <- (length_map ScrapeTask.patientId). unfold r'.
      rewrite loop_patientIds. cbn [map app]. apply length_map. }
    rewrite Hlen. pose proof (filter_length_le isValidRecord (pre ++ post)).
    rewrite !length_app in *. cbn [length]. lia. }
  intros r0 Hr0.
  assert (Hinv0 : isValidRecord r0 = false).
  { unfold isValidRecord. rewrite Hr0. reflexivity. }
  rewrite (generateTasksForPatients_run uuids clock g Hpos).
  fold w1. fold n.
  destruct (loop_drop_invalid uuids clock n cycleStart pre post r0 []
              (initBins n) w1 Hinv0) as [Hfst0 Hclk0].
  rewrite Hfst0, Hclk0, Hclk.
  eexists. f_equal. f_equal. f_equal. f_equal.
  rewrite !length_app. reflexivity.
Qed.

Lemma whitespace_id_is_skipped_witness :
  exists result w',
    TaskGenerator.generateTasksForPatients sampleUuids sampleClock
      defaultGenerator
      ([record "patient-1"] ++ record "   " :: [record "patient-2"])
      cycle0 world0
    = (Normal result, w')
    /\ Stats.tasksGenerated (TaskGenerationResult.stats result)
       < Stats.totalPatients (TaskGenerationResult.stats result).
Proof.
  assert (Hne : PatientInput.id (record "   ") <> []) by discriminate.
  destruct (whitespace_id_is_skipped sampleUuids sampleClock
              TaskGenerator.emptyConfig defaultGenerator
              [record "patient-1"] [record "patient-2"] (record "   ")
              cycle0 world0 eq_refl Hne eq_refl)
    as (_ & _ & _ & result & w' & _ & _ & Hrun & _ & _ & _ & _ & _ & Hlt & _).
  exists result, w'. split; [exact Hrun | exact Hlt].
Defined.

(* ================================================================== *)
(** ** Binary64 numbers *)

Lemma notNegative_spec (x : float) :
  notNegative x <-> sfNotNegative (Prim2SF x).
Proof.
  unfold notNegative. rewrite FloatAxioms.leb_spec.
  change (Prim2SF 0) with (S754_zero false).
  destruct (Prim2SF x) as [s|[|]| |[|] m e]; cbn; intuition congruence.
Qed.

Lemma shr_1_nonneg (mrs : shr_record) :
  0 <= shr_m mrs -> 0 <= shr_m (shr_1 mrs).
Proof.
  destruct mrs as [m r s]. destruct m as [|[p|p|]|p]; cbn; lia.
Qed.

Lemma iter_shr_1_nonneg (p : positive) (mrs : shr_record) :
  0 <= shr_m mrs -> 0 <= shr_m (iter_pos shr_1 p mrs).
Proof.
  revert mrs. induction p as [p IH|p IH|]; intros mrs H; cbn [iter_pos].
  - apply IH, IH, shr_1_nonneg, H.
  - apply IH, IH, H.
  - apply shr_1_nonneg, H.
Qed.

Lemma shr_fexp_nonneg (m e : Z) (l : location) :
  0 <= m -> 0 <= shr_m (fst (shr_fexp prec emax m e l)).
Proof.
  intros H. unfold shr_fexp, shr.
  assert (H0 : 0 <= shr_m (shr_record_of_loc m l)).
  { destruct l as [|[| |]]; exact H. }
  destruct (fexp prec emax (Zdigits2 m + e) - e) as [|p|p]; cbn [fst];
    [exact H0 | apply iter_shr_1_nonneg, H0 | exact H0].
Qed.

Lemma round_nearest_even_nonneg (m : Z) (l : location) :
  0 <= m -> 0 <= round_nearest_even m l.
Proof.
  intros H. destruct l as [|[| |]]; cbn; try destruct (Z.even m); lia.
Qed.

(** Rounding a mantissa that is not negative keeps the sign and gives no
    NaN. *)
Lemma binary_round_aux_sign (sx : bool) (mx ex : Z) (lx : location) :
  0 <= mx ->
  match binary_round_aux prec emax sx mx ex lx with
  | S754_nan => False
  | S754_zero s | S754_infinity s | S754_finite s _ _ => s = sx
  end.
Proof.
  intros H. unfold binary_round_aux.
  pose proof (shr_fexp_nonneg mx ex lx H) as H1.
  destruct (shr_fexp prec emax mx ex lx) as [mrs' e']. cbn [fst] in H1.
  pose proof (shr_fexp_nonneg _ e' loc_Exact
                (round_nearest_even_nonneg _ (loc_of_shr_record mrs') H1))
    as H2.
  destruct (shr_fexp prec emax _ e' loc_Exact) as [mrs'' e''].
  cbn [fst] in H2.
  destruct (shr_m mrs'') as [|m|m]; [reflexivity | | lia].
  destruct (e'' <=? emax - prec); reflexivity.
Qed.

Lemma binary_round_aux_notNegative (mx ex : Z) (lx : location) :
  0 <= mx -> sfNotNegative (binary_round_aux prec emax false mx ex lx).
Proof.
  intros H. pose proof (binary_round_aux_sign false mx ex lx H) as Hs.
  destruct (binary_round_aux prec emax false mx ex lx) as [s|s| |s m e];
    try subst s; try exact I; contradiction.
Qed.

Lemma binary_round_sign (sx : bool) (mx : positive) (ex : Z) :
  match binary_round prec emax sx mx ex with
  | S754_nan => False
  | S754_zero s | S754_infinity s | S754_finite s _ _ => s = sx
  end.
Proof.
  unfold binary_round. destruct (shl_align _ _ _) as [mz ez].
  apply binary_round_aux_sign. lia.
Qed.

Lemma binary_normalize_notNaN (m e : Z) :
  binary_normalize prec emax m e false <> S754_nan.
Proof.
  destruct m as [|p|p]; cbn [binary_normalize]; [discriminate | |].
  - pose proof (binary_round_sign false p e) as H.
    destruct (binary_round prec emax false p e); try discriminate.
    contradiction.
  - pose proof (binary_round_sign true p e) as H.
    destruct (binary_round prec emax true p e); try discriminate.
    contradiction.
Qed.

Lemma binary_normalize_notNegative (m e : Z) :
  0 <= m -> sfNotNegative (binary_normalize prec emax m e false).
Proof.
  intros Hm. destruct m as [|p|p]; cbn [binary_normalize]; [exact I | | lia].
  pose proof (binary_round_sign false p e) as H.
  destruct (binary_round prec emax false p e) as [s|s| |s m0 e0];
    try subst s; try exact I; contradiction.
Qed.

(** The binary64 number of a specification that is not negative is not
    negative. *)
Lemma SF2Prim_notNegative (x : spec_float) :
  sfNotNegative x -> sfNotNegative (Prim2SF (SF2Prim x)).
Proof.
  destruct x as [s|[|]| |[|] m e]; cbn [sfNotNegative]; try contradiction;
    intros _.
  - destruct s; exact I.
  - exact I.
  - unfold SF2Prim. rewrite Z_ldexp_spec, FloatAxioms.of_uint63_spec.
    pose proof (binary_normalize_notNegative
                  (Uint63.to_Z (Uint63.of_Z (Z.pos m))) 0
                  (proj1 (Uint63.to_Z_bounded _))) as H.
    destruct (binary_normalize prec emax _ 0 false)
      as [s'|[|]| |[|] m' e']; try contradiction; try exact I.
    cbn [SFldexp].
    pose proof (binary_round_sign false m' (e' + e)) as Hs.
    destruct (binary_round prec emax false m' (e' + e)) as [s0|s0| |s0 m0 e0];
      try subst s0; try exact I; contradiction.
Qed.

(** The binary64 number of an integer that is not negative is neither NaN
    nor negative. *)
Lemma Z2F_notNegative (z : Z) : 0 <= z -> sfNotNegative (Prim2SF (Z2F z)).
Proof.
  intros Hz. unfold Z2F.
  apply SF2Prim_notNegative, binary_normalize_notNegative, Hz.
Qed.

Lemma digits2_pos_lower (p : positive) :
  2 ^ (Z.pos (digits2_pos p) - 1) <= Z.pos p.
Proof.
  induction p as [p IH|p IH|]; cbn [digits2_pos].
  - rewrite Pos2Z.inj_succ.
    replace (Z.succ (Z.pos (digits2_pos p)) - 1)
      with (Z.succ (Z.pos (digits2_pos p) - 1)) by lia.
    rewrite Z.pow_succ_r by lia. lia.
  - rewrite Pos2Z.inj_succ.
    replace (Z.succ (Z.pos (digits2_pos p)) - 1)
      with (Z.succ (Z.pos (digits2_pos p) - 1)) by lia.
    rewrite Z.pow_succ_r by lia. lia.
  - cbn. lia.
Qed.

Lemma digits2_pos_iter (p k : positive) :
  digits2_pos (Pos.iter xO p k) = (digits2_pos p + k)%positive.
Proof.
  induction k as [|k IH] using Pos.peano_ind.
  - cbn. lia.
  - rewrite Pos.iter_succ. cbn [digits2_pos]. rewrite IH. lia.
Qed.

(** Rounding a mantissa that is in canonical form and in range leaves it
    as it is. *)
Lemma binary_round_aux_canonical (sx : bool) (m : positive) (e : Z) :
  bounded prec emax m e = true ->
  binary_round_aux prec emax sx (Z.pos m) e loc_Exact = S754_finite sx m e.
Proof.
  unfold bounded, canonical_mantissa. intros H.
  apply andb_prop in H. destruct H as [Hc He].
  apply Z.eqb_eq in Hc.
  unfold binary_round_aux, shr_fexp.
  cbn [Zdigits2 shr_record_of_loc]. rewrite Hc, Z.sub_diag.
  cbn [shr shr_m loc_of_shr_record round_nearest_even Zdigits2
       shr_record_of_loc].
  rewrite Hc, Z.sub_diag. cbn [shr shr_m]. rewrite He. reflexivity.
Qed.

(** A positive integer that is safe (below 2^53) is a finite positive
    binary64 number. *)
Lemma Z2F_finite (z : Z) :
  0 < z <= MAX_SAFE_INTEGER ->
  exists m e, Prim2SF (Z2F z) = S754_finite false m e.
Proof.
  unfold MAX_SAFE_INTEGER. intros Hz.
  assert (H : exists m e,
             binary_normalize prec emax z 0 false = S754_finite false m e
             /\ bounded prec emax m e = true).
  { destruct z as [|p|p]; try lia. cbn [binary_normalize].
    unfold binary_round.
    pose proof (digits2_pos_lower p) as Hd.
    assert (Hle : Z.pos (digits2_pos p) <= 53).
    { destruct (Z_le_gt_dec (Z.pos (digits2_pos p)) 53) as [H|H];
        [exact H|].
      exfalso.
      assert (2 ^ 53 <= 2 ^ (Z.pos (digits2_pos p) - 1))
        by (apply Z.pow_le_mono_r; lia).
      lia. }
    assert (Hf : fexp prec emax (Z.pos (digits2_pos p) + 0)
                 = Z.pos (digits2_pos p) - 53).
    { unfold fexp, SpecFloat.emin, prec, emax. lia. }
    rewrite Hf. unfold shl_align.
    destruct (Z.pos (digits2_pos p) - 53 - 0) as [|k|k] eqn:Ek; try lia.
    - assert (Hb : bounded prec emax p 0 = true).
      { unfold bounded, canonical_mantissa.
        apply andb_true_intro. split.
        + apply Z.eqb_eq. unfold fexp, SpecFloat.emin, prec, emax. lia.
        + apply Z.leb_le. unfold prec, emax. lia. }
      do 2 eexists. split; [|exact Hb].
      apply binary_round_aux_canonical, Hb.
    - assert (Hb : bounded prec emax (Pos.iter xO p k)
                           (Z.pos (digits2_pos p) - 53) = true).
      { unfold bounded, canonical_mantissa.
        apply andb_true_intro. split.
        + apply Z.eqb_eq. rewrite digits2_pos_iter.
          unfold fexp, SpecFloat.emin, prec, emax. lia.
        + apply Z.leb_le. unfold prec, emax. lia. }
      do 2 eexists. split; [|exact Hb].
      apply binary_round_aux_canonical, Hb. }
  destruct H as (m & e & Hn & Hb).
  exists m, e. unfold Z2F. rewrite Hn. apply Prim2SF_SF2Prim. exact Hb.
Qed.

(** A safe integer that is not negative is zero or a finite positive
    number. *)
Lemma Z2F_safe (z : Z) :
  0 <= z <= MAX_SAFE_INTEGER ->
  Z2F z = 0%float \/ exists m e, Prim2SF (Z2F z) = S754_finite false m e.
Proof.
  intros Hz. destruct (Z.eq_dec z 0) as [->|Hne].
  - left. reflexivity.
  - right. apply Z2F_finite. lia.
Qed.

(** The quotient of a number that is not negative by a finite positive one
    is not negative. *)
Lemma SFdiv_notNegative (x : spec_float) (m : positive) (e : Z) :
  sfNotNegative x ->
  sfNotNegative (SFdiv prec emax x (S754_finite false m e)).
Proof.
  destruct x as [s|[|]| |[|] mx ex]; cbn [sfNotNegative SFdiv xorb];
    try contradiction; try (intros _; exact I).
  intros _. unfold SFdiv_core_binary.
  set (s := ex - e - _).
  set (m' := match s with Z.pos _ => Z.shiftl (Z.pos mx) s | 0 => Z.pos mx
             | Z.neg _ => 0 end).
  assert (Hm' : 0 <= m').
  { unfold m'. destruct s; try lia. apply Z.shiftl_nonneg. lia. }
  pose proof (Z.div_pos m' (Z.pos m) Hm' ltac:(lia)) as Hq.
  unfold Z.div in Hq.
  destruct (Z.div_eucl m' (Z.pos m)) as [q r].
  apply binary_round_aux_notNegative. exact Hq.
Qed.

Lemma div_notNegative (x y : float) (m : positive) (e : Z) :
  sfNotNegative (Prim2SF x) ->
  Prim2SF y = S754_finite false m e ->
  sfNotNegative (Prim2SF (x / y)).
Proof.
  intros Hx Hy. rewrite FloatAxioms.div_spec, Hy. apply SFdiv_notNegative, Hx.
Qed.


(** The sum of two numbers that are not negative is not negative. *)
Lemma SFadd_notNegative (x y : spec_float) :
  sfNotNegative x -> sfNotNegative y ->
  sfNotNegative (SFadd prec emax x y).
Proof.
  destruct x as [sx|[|]| |[|] mx ex]; cbn [sfNotNegative];
    try contradiction; intros _;
    destruct y as [sy|[|]| |[|] my ey]; cbn [sfNotNegative];
    try contradiction; intros _; cbn [SFadd sfNotNegative];
    try exact I.
  - destruct sx, sy; exact I.
  - apply binary_normalize_notNegative. cbn [cond_Zopp]. lia.
Qed.

(** The square of a number that is not NaN is not negative. *)
Lemma SFmul_square_notNegative (x : spec_float) :
  x <> S754_nan -> sfNotNegative (SFmul prec emax x x).
Proof.
  intros Hx. destruct x as [s|s| |s m e]; cbn [SFmul].
  - exact I.
  - destruct s; exact I.
  - contradiction.
  - rewrite xorb_nilpotent. apply binary_round_aux_notNegative. lia.
Qed.

(** The difference of a finite number and a number that is not negative
    is not NaN. *)
Lemma SFsub_notNaN (x y : spec_float) :
  (x = S754_zero false \/ exists m e, x = S754_finite false m e) ->
  sfNotNegative y ->
  SFsub prec emax x y <> S754_nan.
Proof.
  intros [->|(m & e & ->)];
    destruct y as [sy|[|]| |[|] my ey]; cbn [sfNotNegative];
    try contradiction; intros _; cbn [SFsub]; try discriminate.
  - destruct sy; discriminate.
  - apply binary_normalize_notNaN.
Qed.

(** The square root of a number that is not negative is not negative. *)
Lemma SFsqrt_notNegative (x : spec_float) :
  sfNotNegative x -> sfNotNegative (SFsqrt prec emax x).
Proof.
  destruct x as [s|[|]| |[|] m e]; cbn [sfNotNegative SFsqrt];
    try contradiction; try (intros _; exact I).
  intros _. unfold SFsqrt_core_binary.
  set (s := e - 2 * _).
  set (m' := match s with Z.pos _ => Z.shiftl (Z.pos m) s | 0 => Z.pos m
             | Z.neg _ => 0 end).
  assert (Hm' : 0 <= m').
  { unfold m'. destruct s; try lia. apply Z.shiftl_nonneg. lia. }
  pose proof (Z.sqrtrem_spec m' Hm') as Hq.
  destruct (Z.sqrtrem m') as [q r].
  apply binary_round_aux_notNegative. lia.
Qed.

(** The order of binary64 numbers is transitive. *)
Lemma SFleb_trans (x y z : spec_float) :
  SFleb x y = true -> SFleb y z = true -> SFleb x z = true.
Proof.
  unfold SFleb.
  destruct x as [sx|sx| |sx mx ex], y as [sy|sy| |sy my ey],
           z as [sz|sz| |sz mz ez]; cbn [SFcompare];
    try discriminate; try reflexivity;
    try (destruct sx); try (destruct sy); try (destruct sz);
    try discriminate; try reflexivity.
  all: rewrite ?Pos.compare_cont_spec; cbn [Pos.switch_Eq].
  all: destruct (Z.compare_spec ex ey), (Z.compare_spec ey ez),
         (Z.compare_spec ex ez); try discriminate; try reflexivity;
         try lia.
  all: destruct (Pos.compare_spec mx my), (Pos.compare_spec my mz),
         (Pos.compare_spec mx mz); cbn; try discriminate; try reflexivity;
         try lia.
Qed.

Lemma leb_trans (x y z : float) :
  (x <=? y)%float = true -> (y <=? z)%float = true ->
  (x <=? z)%float = true.
Proof. rewrite !FloatAxioms.leb_spec. apply SFleb_trans. Qed.


(* ================================================================== *)
(** ** Statistics *)

Lemma fold_left_Zadd (l : list Z) (a : Z) :
  fold_left Z.add l a = a + sumZ l.
Proof.
  revert a. induction l as [|x l IH]; intros a;
    cbn [fold_left sumZ fold_right].
  - lia.
  - rewrite IH. fold (sumZ l). lia.
Qed.

Lemma binPopulations_length (patientIds : list Js.JsString) (binCount : Z) :
  length (binPopulations patientIds binCount) = Z.to_nat binCount.
Proof.
  unfold binPopulations. rewrite length_map. apply binIndices_length.
Qed.




Lemma sumZ_nonneg (l : list Z) : Forall (fun c => 0 <= c) l -> 0 <= sumZ l.
Proof.
  induction 1 as [|c l Hc _ IH]; cbn [sumZ fold_right]; [lia|].
  fold (sumZ l). lia.
Qed.


(** The mean of counts that are not negative is not negative. *)
Lemma meanOfCounts_notNegative (counts : list Z) :
  0 < Z.of_nat (length counts) <= MAX_SAFE_INTEGER ->
  Forall (fun c => 0 <= c) counts ->
  sfNotNegative (Prim2SF (meanOfCounts counts)).
Proof.
  intros Hlen Hnn. unfold meanOfCounts.
  destruct (Z2F_finite _ Hlen) as (m & e & Hl).
  apply (div_notNegative _ _ m e); [|exact Hl].
  apply Z2F_notNegative, sumZ_nonneg, Hnn.
Qed.


(** The statistics that [analyzeDistribution] returns. *)
Lemma analyzeDistribution_stats (patientIds : list Js.JsString)
    (binCount : Z) :
  0 < binCount ->
  Forall (fun i => isBlank i = false) patientIds ->
  exists d,
    analyzeDistribution patientIds binCount = Normal d
    /\ JsMap.values (Distribution.binCounts d)
       = binPopulations patientIds binCount
    /\ Distribution.mean d
       = meanOfCounts (binPopulations patientIds binCount)
    /\ Distribution.variance d
       = populationVariance (binPopulations patientIds binCount)
    /\ Distribution.stdDev d
       = populationStdDev (binPopulations patientIds binCount).
Proof.
  intros Hpos Hall. unfold analyzeDistribution.
  rewrite (countOffsets_valid _ _ _ Hpos Hall). cbn [bind].
  rewrite (histogram_values _ _ (offsets_in_range patientIds binCount Hpos)).
  unfold populationStdDev, populationVariance, meanOfCounts, binPopulations.
  rewrite (offsetsOf_valid _ _ Hpos Hall).
  eexists. split; [reflexivity|].
  cbn [Distribution.binCounts Distribution.mean Distribution.variance
       Distribution.stdDev].
  rewrite fold_left_Zadd, Z.add_0_l.
  split; [|repeat split; reflexivity].
  apply (histogram_values _ _ (offsets_in_range patientIds binCount Hpos)).
Qed.

Lemma binPopulations_safe (patientIds : list Js.JsString) (binCount : Z) :
  0 < binCount <= MAX_SAFE_INTEGER ->
  0 < Z.of_nat (length (binPopulations patientIds binCount))
  <= MAX_SAFE_INTEGER.
Proof. intros H. rewrite binPopulations_length. lia. Qed.




(* ================================================================== *)
(** ** Examples *)

(** The digest agrees with the published test vectors and with the values
    that Node prints for identifiers of the test-suite. *)
Example sha256Hex_empty :
  sha256Hex (Js.lit "") =
  Js.lit "e3b0c44298fc1c149afbf4c8996fb92427ae41e4649b934ca495991b7852b855".
Proof. vm_compute. reflexivity. Qed.

Example sha256Hex_abc :
  sha256Hex (Js.lit "abc") =
  Js.lit "ba7816bf8f01cfea414140de5dae2223b00361a396177a9cb410ff61f20015ad".
Proof. vm_compute. reflexivity. Qed.

Example sha256Hex_patient_123 :
  sha256Hex (Js.lit "patient-123") =
  Js.lit "1985450135cd5118dfa8b2f6218ac0b3508373ad6e780104ad53c44abdd85e40".
Proof. vm_compute. reflexivity. Qed.

(** Two blocks: 64 and 120 bytes of input. *)
Example sha256Hex_two_blocks :
  sha256Hex (repeat 97 64) =
  Js.lit "ffe054fe7ae0cb6dc65c3af9b61d5209f439851db43d0ba5997337df154668eb"
  /\ sha256Hex (repeat 97 120) =
  Js.lit "2f3d335432c70b580af0e8e1b3674a7c020d683aa5f73aaaedfdc55af904c21c".
Proof. split; vm_compute; reflexivity. Qed.

(** A non-ASCII identifier: U+00E9 is hashed as the bytes C3 A9. *)
Example sha256Hex_e_acute :
  sha256Hex [233] =
  Js.lit "4a99557e4033c3539de2eb65472017cad5f9557f7a0625a09f1c3f6e2ba69c4c".
Proof. vm_compute. reflexivity. Qed.

(** The values of the test-suite's identifiers. *)
Example computeOffset_patient_123 :
  computeOffset (Js.lit "patient-123") 300 = Normal 153.
Proof. vm_compute. reflexivity. Qed.

Example computeOffset_nogap :
  computeOffset (Js.lit "patient-nogap-test") DEFAULT_BIN_COUNT = Normal 171.
Proof. vm_compute. reflexivity. Qed.

Example computeOffset_errors :
  throws (computeOffset (Js.lit "") 300)
  /\ throws (computeOffset (Js.lit "   ") 300)
  /\ throws (computeOffset (Js.lit "patient-1") 0)
  /\ throws (computeOffset (Js.lit "patient-1") (-1)).
Proof. repeat split; eexists; vm_compute; reflexivity. Qed.

(** Identifiers outside ASCII: two CJK characters (three bytes each) and a
    surrogate pair (four bytes). *)
Example computeOffset_non_ascii :
  computeOffset [24739; 32773] 300 = Normal 199
  /\ computeOffset [55357; 56832] 300 = Normal 88
  /\ throws (computeOffset [12288; 160; 8232] 300).
Proof. repeat split; try (eexists; vm_compute; reflexivity). Qed.

(** The end-to-end scenario of the test-suite: five records, the default
    configuration. *)
Example end_to_end_offsets :
  option_map
    (fun r => map ScrapeTask.offsetSeconds (TaskGenerationResult.tasks r))
    (match TaskGenerator.generateTasksForPatients sampleUuids sampleClock
             defaultGenerator
             [record "patient-heart-001"; record "patient-diabetes-002";
              record "patient-bp-003"; record "patient-weight-004";
              record "patient-glucose-005"] cycle0 world0
     with
     | (Normal r, _) => Some r
     | _ => None
     end)
  = Some [243; 236; 236; 149; 187].
Proof. vm_compute. reflexivity. Qed.

(** A record with an empty identifier and one made of spaces are logged
    and dropped. *)
Example batch_with_bad_records :
  match TaskGenerator.generateTasksForPatients sampleUuids sampleClock
          defaultGenerator
          [record "patient-1"; record ""; record "   "; record "patient-2"]
          cycle0 world0
  with
  | (Normal r, w) =>
    map ScrapeTask.patientId (TaskGenerationResult.tasks r)
    = [Js.lit "patient-1"; Js.lit "patient-2"]
    /\ Stats.totalPatients (TaskGenerationResult.stats r) = 4
    /\ Stats.tasksGenerated (TaskGenerationResult.stats r) = 2
    /\ map snd (console w)
       = [Error "Patient ID is required";
          Error "Patient ID is required and cannot be empty"]
  | _ => False
  end.
Proof. vm_compute. repeat split; reflexivity. Qed.

(* ================================================================== *)
(** ** Further properties of the generator *)

Lemma constructor_interval (config : TaskGeneratorConfig.t)
    (g : TaskGenerator.t) :
  TaskGenerator.constructor config = Normal g ->
  0 < TaskGenerator.intervalSeconds g.
Proof.
  intros H. destruct (constructor_normal config g H). lia.
Qed.

Lemma ceilDiv_bounds (a b : Z) :
  0 < b -> a <= ceilDiv a b * b < a + b.
Proof.
  intros Hb. unfold ceilDiv.
  pose proof (Z.div_mod (- a) b ltac:(lia)) as Hdm.
  pose proof (Z.mod_pos_bound (- a) b Hb) as Hm.
  nia.
Qed.

(** X1.  [generateTasksForNextCycle] reads the clock once and runs the
    batch for the [Date] of the least multiple of the interval (in
    milliseconds) that is not before the reading: that time value is
    aligned, lies in [now, now + interval), and equals the reading when the
    reading is itself aligned.  The cycle start is the valid [Date] of that
    time value when it is in the range of dates, and the invalid [Date]
    when it lies beyond the range. *)
Theorem nextCycle_is_least_boundary (uuids : nat -> Js.JsString)
    (clock : nat -> Z) (config : TaskGeneratorConfig.t)
    (g : TaskGenerator.t) (patients : list PatientInput.t) (w : World) :
  TaskGenerator.constructor config = Normal g ->
  exists start,
    TaskGenerator.generateTasksForNextCycle uuids clock g patients w
    = TaskGenerator.generateTasksForPatients uuids clock g patients
        (newDate start) (afterClock w)
    /\ (TaskGenerator.intervalSeconds g * 1000 | start)
    /\ clock (clockReads w) <= start
       < clock (clockReads w) + TaskGenerator.intervalSeconds g * 1000
    /\ (forall boundary,
          (TaskGenerator.intervalSeconds g * 1000 | boundary) ->
          clock (clockReads w) <= boundary -> start <= boundary)
    /\ ((TaskGenerator.intervalSeconds g * 1000 | clock (clockReads w)) ->
        start = clock (clockReads w))
    /\ (inDateRange start -> newDate start = ValidDate start)
    /\ (MAX_TIME < start -> newDate start = InvalidDate).
Proof.
  intros Hg. pose proof (constructor_interval config g Hg) as Hi.
  set (I := TaskGenerator.intervalSeconds g * 1000).
  assert (HI : 0 < I) by (unfold I; lia).
  set (t := clock (clockReads w)).
  exists (ceilDiv t I * I).
  pose proof (ceilDiv_bounds t I HI) as Hb.
  assert (Hleast : forall boundary, (I | boundary) -> t <= boundary ->
                                    ceilDiv t I * I <= boundary).
  { intros boundary [k ->] Hk.
    apply Z.mul_le_mono_nonneg_r; [lia|]. nia. }
  split; [reflexivity|]. split; [exists (ceilDiv t I); reflexivity|].
  split; [exact Hb|]. split; [exact Hleast|].
  split; [|split; [apply newDate_valid | apply newDate_invalid]].
  intros Hdiv. pose proof (Hleast t Hdiv ltac:(lia)). lia.
Qed.

Lemma nextCycle_is_least_boundary_witness :
  exists start,
    TaskGenerator.generateTasksForNextCycle sampleUuids sampleClock
      defaultGenerator [record "patient-1"] world0
    = TaskGenerator.generateTasksForPatients sampleUuids sampleClock
        defaultGenerator [record "patient-1"] (newDate start)
        (afterClock world0)
    /\ (300 * 1000 | start)
    /\ sampleClock 0 <= start < sampleClock 0 + 300 * 1000.
Proof.
  destruct (nextCycle_is_least_boundary sampleUuids sampleClock
              TaskGenerator.emptyConfig defaultGenerator
              [record "patient-1"] world0 eq_refl)
    as (start & Hrun & Hdiv & Hin & _).
  exists start. split; [exact Hrun|]. split; [exact Hdiv | exact Hin].
Defined.

(** An interval of 10^13 seconds: the next boundary after the sample clock
    is 10^16 ms, beyond the range of dates, and every task of the batch
    fires at the invalid [Date]. *)
Example nextCycle_beyond_range :
  match TaskGenerator.generateTasksForNextCycle sampleUuids sampleClock
          (TaskGenerator.Make 10000000000000 300) [record "patient-123"]
          world0
  with
  | (Normal r, _) =>
    map ScrapeTask.fireAt (TaskGenerationResult.tasks r) = [InvalidDate]
  | _ => False
  end.
Proof. vm_compute. reflexivity. Qed.

(** X2.  For a generator that construction returned and a record whose
    identifier is not blank, [generateTaskForPatient] returns a task for
    that identifier, pending, with no failure and no completion time, whose
    offset is the one [getPatientOffset] reports and whose fire time is the
    one [computeFireTime] reports; its identity is the next value of
    [randomUUID], its creation time the next clock reading, and exactly one
    of each is consumed; nothing is logged. *)
Theorem generated_task_fields (uuids : nat -> Js.JsString) (clock : nat -> Z)
    (config : TaskGeneratorConfig.t) (g : TaskGenerator.t)
    (patient : PatientInput.t) (cycleStart : Date) (w : World) :
  TaskGenerator.constructor config = Normal g ->
  isBlank (PatientInput.id patient) = false ->
  exists task,
    TaskGenerator.generateTaskForPatient uuids clock g patient cycleStart w
    = (Normal task,
       MkWorld (S (uuidCalls w)) (S (clockReads w)) (console w))
    /\ ScrapeTask.patientId task = PatientInput.id patient
    /\ ScrapeTask.status task = pending
    /\ ScrapeTask.consecutiveFailures task = 0
    /\ ScrapeTask.completedAt task = None
    /\ ScrapeTask.id task = uuids (uuidCalls w)
    /\ ScrapeTask.createdAt task = ValidDate (clock (clockReads w))
    /\ TaskGenerator.getPatientOffset g (PatientInput.id patient)
       = Normal (ScrapeTask.offsetSeconds task)
    /\ computeFireTime (PatientInput.id patient) cycleStart
                       (TaskGenerator.binCount g)
       = Normal (ScrapeTask.fireAt task).
Proof.
  intros Hg Hid. destruct (constructor_normal config g Hg) as [Hpos _].
  assert (Hv : isValidRecord patient = true).
  { unfold isValidRecord. rewrite Hid. reflexivity. }
  rewrite (generateTaskForPatient_valid uuids clock g Hpos _ _ _ Hv).
  eexists. split; [reflexivity|].
  unfold taskOf, TaskGenerator.getPatientOffset.
  cbn [ScrapeTask.patientId ScrapeTask.status ScrapeTask.consecutiveFailures
       ScrapeTask.completedAt ScrapeTask.id ScrapeTask.createdAt
       ScrapeTask.offsetSeconds ScrapeTask.fireAt].
  rewrite (computeOffset_valid _ _ Hid Hpos).
  rewrite (computeFireTime_valid _ _ _ Hid Hpos).
  repeat split; reflexivity.
Qed.

Lemma generated_task_fields_witness :
  exists task,
    TaskGenerator.generateTaskForPatient sampleUuids sampleClock
      defaultGenerator (record "patient-123") cycle0 world0
    = (Normal task, MkWorld 1 1 [])
    /\ TaskGenerator.getPatientOffset defaultGenerator (Js.lit "patient-123")
       = Normal (ScrapeTask.offsetSeconds task).
Proof.
  destruct (generated_task_fields sampleUuids sampleClock
              TaskGenerator.emptyConfig defaultGenerator
              (record "patient-123") cycle0 world0 eq_refl eq_refl)
    as (task & Hrun & _ & _ & _ & _ & _ & _ & Hoff & _).
  exists task. split; [exact Hrun | exact Hoff].
Defined.

(** X3.  [generateTaskForPatient] fails before it touches its
    environment: for every generator, whatever its configuration, a call
    that throws leaves the world as it was (no identifier drawn, the clock
    not read, nothing logged), and a call that returns has drawn one
    identifier and read the clock once.  It throws [Patient ID is required]
    on an empty identifier. *)
Theorem generateTaskForPatient_atomic (uuids : nat -> Js.JsString)
    (clock : nat -> Z) (g : TaskGenerator.t) (patient : PatientInput.t)
    (cycleStart : Date) (w : World) :
  (TaskGenerator.generateTaskForPatient uuids clock g patient cycleStart w
   = (Throw (if Js.falsy (PatientInput.id patient)
             then Error "Patient ID is required"
             else if isBlank (PatientInput.id patient)
                  then Error "Patient ID is required and cannot be empty"
                  else Error "Bin count must be a positive integer"), w)
   /\ (isBlank (PatientInput.id patient) = true
       \/ TaskGenerator.binCount g <= 0))
  \/ (exists task,
        TaskGenerator.generateTaskForPatient uuids clock g patient
                                             cycleStart w
        = (Normal task,
           MkWorld (S (uuidCalls w)) (S (clockReads w)) (console w))
        /\ isBlank (PatientInput.id patient) = false
        /\ 0 < TaskGenerator.binCount g).
Proof.
  unfold TaskGenerator.generateTaskForPatient.
  destruct (PatientInput.id patient) as [|c r] eqn:Eid.
  - left. split; [reflexivity | left; reflexivity].
  - cbn [Js.falsy]. unfold bindM, lift, computeFireTime.
    rewrite computeOffset_cases.
    destruct (isBlank (c :: r)) eqn:Eb.
    + left. split; [reflexivity | left; reflexivity].
    + destruct (Z.leb_spec (TaskGenerator.binCount g) 0) as [Hn|Hn].
      * left. split; [reflexivity | right; exact Hn].
      * right. cbn [bind]. eexists. split; [reflexivity|]. split; [reflexivity|exact Hn].
Qed.

(** What the loop does to the world, and which identities and creation
    times it hands out. *)
Section LoopEffects.

Variable uuids : nat -> Js.JsString.
Variable clock : nat -> Z.
Variable n : Z.
Variable cycleStart : Date.

Local Abbreviation run := (loopResult uuids clock n).

Lemma loop_console_log (patients : list PatientInput.t)
    (tasks : list ScrapeTask.t) (bins : JsMap.t) (w : World) :
  console (snd (run patients cycleStart tasks bins w))
  = console w
      ++ map logEntry (filter (fun p => negb (isValidRecord p)) patients).
Proof.
  revert tasks bins w.
  induction patients as [|p rest IH]; intros tasks bins w;
    cbn [loopResult filter].
  - cbn. rewrite app_nil_r. reflexivity.
  - destruct (isValidRecord p); cbn [negb].
    + rewrite IH. reflexivity.
    + rewrite IH. cbn [afterSkip console map]. rewrite <- app_assoc.
      reflexivity.
Qed.

Lemma loop_counters (patients : list PatientInput.t)
    (tasks : list ScrapeTask.t) (bins : JsMap.t) (w : World) :
  uuidCalls (snd (run patients cycleStart tasks bins w))
  = (uuidCalls w + length (filter isValidRecord patients))%nat
  /\ clockReads (snd (run patients cycleStart tasks bins w))
     = (clockReads w + length (filter isValidRecord patients))%nat.
Proof.
  revert tasks bins w.
  induction patients as [|p rest IH]; intros tasks bins w;
    cbn [loopResult filter].
  - cbn. lia.
  - destruct (isValidRecord p).
    + destruct (IH (tasks ++ [taskOf uuids clock n p cycleStart w])
                   (bump bins (binOf (PatientInput.id p) n)) (afterTask w))
        as [Hu Hc].
      rewrite Hu, Hc. cbn [afterTask uuidCalls clockReads length]. lia.
    + destruct (IH tasks bins (afterSkip p w)) as [Hu Hc].
      rewrite Hu, Hc. cbn [afterSkip uuidCalls clockReads]. lia.
Qed.

Lemma loop_ids (patients : list PatientInput.t)
    (tasks : list ScrapeTask.t) (bins : JsMap.t) (w : World) :
  map ScrapeTask.id (fst (fst (run patients cycleStart tasks bins w)))
  = map ScrapeTask.id tasks
      ++ map uuids (seq (uuidCalls w)
                        (length (filter isValidRecord patients))).
Proof.
  revert tasks bins w.
  induction patients as [|p rest IH]; intros tasks bins w;
    cbn [loopResult filter].
  - cbn. rewrite app_nil_r. reflexivity.
  - destruct (isValidRecord p).
    + rewrite IH, map_app, <- app_assoc. reflexivity.
    + exact (IH tasks bins (afterSkip p w)).
Qed.

Lemma loop_createdAt (patients : list PatientInput.t)
    (tasks : list ScrapeTask.t) (bins : JsMap.t) (w : World) :
  map ScrapeTask.createdAt (fst (fst (run patients cycleStart tasks bins w)))
  = map ScrapeTask.createdAt tasks
      ++ map (fun k => ValidDate (clock k))
             (seq (clockReads w) (length (filter isValidRecord patients))).
Proof.
  revert tasks bins w.
  induction patients as [|p rest IH]; intros tasks bins w;
    cbn [loopResult filter].
  - cbn. rewrite app_nil_r. reflexivity.
  - destruct (isValidRecord p).
    + rewrite IH, map_app, <- app_assoc. reflexivity.
    + exact (IH tasks bins (afterSkip p w)).
Qed.

Lemma loop_length (patients : list PatientInput.t)
    (tasks : list ScrapeTask.t) (bins : JsMap.t) (w : World) :
  length (fst (fst (run patients cycleStart tasks bins w)))
  = (length tasks + length (filter isValidRecord patients))%nat.
Proof.
  rewrite <- (length_map ScrapeTask.patientId), loop_patientIds.
  rewrite length_app, !length_map. reflexivity.
Qed.

End LoopEffects.

(** X4.  The batch call writes to the console one line per record that is
    not valid, in input order, naming the identifier of the record and
    carrying the error that was caught; it writes nothing for a valid
    record, and the number of lines is the difference between
    [totalPatients] and [tasksGenerated]. *)
Theorem batch_logs_each_skipped_record (uuids : nat -> Js.JsString)
    (clock : nat -> Z) (config : TaskGeneratorConfig.t)
    (g : TaskGenerator.t) (patients : list PatientInput.t)
    (cycleStart : Date) (w : World) :
  TaskGenerator.constructor config = Normal g ->
  exists result w',
    TaskGenerator.generateTasksForPatients uuids clock g patients
                                           cycleStart w
    = (Normal result, w')
    /\ console w'
       = console w
           ++ map logEntry
                  (filter (fun p => negb (isValidRecord p)) patients)
    /\ Z.of_nat (length (console w')) - Z.of_nat (length (console w))
       = Stats.totalPatients (TaskGenerationResult.stats result)
         - Stats.tasksGenerated (TaskGenerationResult.stats result).
Proof.
  intros Hg. destruct (constructor_normal config g Hg) as [Hpos _].
  rewrite (generateTasksForPatients_run uuids clock g Hpos).
  do 2 eexists. split; [reflexivity|].
  cbn [console TaskGenerationResult.stats Stats.totalPatients
       Stats.tasksGenerated].
  rewrite loop_console_log, loop_length. cbn [console length].
  split; [reflexivity|].
  rewrite length_app, length_map.
  pose proof (filter_length isValidRecord patients) as Hsplit.
  lia.
Qed.

Lemma batch_logs_each_skipped_record_witness :
  exists result w',
    TaskGenerator.generateTasksForPatients sampleUuids sampleClock
      defaultGenerator [record "patient-1"; record "   "] cycle0
      world0
    = (Normal result, w')
    /\ console w' = [logEntry (record "   ")].
Proof.
  destruct (batch_logs_each_skipped_record sampleUuids sampleClock
              TaskGenerator.emptyConfig defaultGenerator
              [record "patient-1"; record "   "] cycle0 world0
              eq_refl)
    as (result & w' & Hrun & Hlog & _).
  exists result, w'. split; [exact Hrun | exact Hlog].
Defined.

Lemma NoDup_map_injective {A B : Type} (f : A -> B) (l : list A) :
  (forall x y, f x = f y -> x = y) -> NoDup l -> NoDup (map f l).
Proof.
  intros Hinj. induction 1 as [|a l Hnotin _ IH]; cbn [map].
  - constructor.
  - constructor; [|exact IH].
    intros Hin. apply in_map_iff in Hin. destruct Hin as (x & Hx & Hin).
    apply Hinj in Hx. subst x. contradiction.
Qed.

(** X5.  The tasks of a batch take their identities from consecutive
    calls of [randomUUID] and their creation times from consecutive clock
    readings, in task order.  The batch calls [randomUUID] once per task
    and reads the clock twice more than that (at its start and at its
    end); records that are skipped consume neither.  When [randomUUID]
    never repeats a value, the task identities are pairwise distinct. *)
Theorem batch_task_identities (uuids : nat -> Js.JsString)
    (clock : nat -> Z) (config : TaskGeneratorConfig.t)
    (g : TaskGenerator.t) (patients : list PatientInput.t)
    (cycleStart : Date) (w : World) :
  TaskGenerator.constructor config = Normal g ->
  exists result w',
    TaskGenerator.generateTasksForPatients uuids clock g patients
                                           cycleStart w
    = (Normal result, w')
    /\ map ScrapeTask.id (TaskGenerationResult.tasks result)
       = map uuids (seq (uuidCalls w)
                        (length (TaskGenerationResult.tasks result)))
    /\ map ScrapeTask.createdAt (TaskGenerationResult.tasks result)
       = map (fun k => ValidDate (clock k))
             (seq (S (clockReads w))
                  (length (TaskGenerationResult.tasks result)))
    /\ uuidCalls w'
       = (uuidCalls w + length (TaskGenerationResult.tasks result))%nat
    /\ clockReads w'
       = (clockReads w + length (TaskGenerationResult.tasks result) + 2)%nat
    /\ ((forall i j, uuids i = uuids j -> i = j) ->
        NoDup (map ScrapeTask.id (TaskGenerationResult.tasks result))).
Proof.
  intros Hg. destruct (constructor_normal config g Hg) as [Hpos _].
  rewrite (generateTasksForPatients_run uuids clock g Hpos).
  do 2 eexists. split; [reflexivity|].
  cbn [TaskGenerationResult.tasks uuidCalls clockReads].
  set (w1 := MkWorld (uuidCalls w) (S (clockReads w)) (console w)).
  set (n := TaskGenerator.binCount g).
  pose proof (loop_ids uuids clock n cycleStart patients [] (initBins n) w1)
    as Hids.
  pose proof (loop_createdAt uuids clock n cycleStart patients []
                             (initBins n) w1) as Hct.
  pose proof (loop_length uuids clock n cycleStart patients []
                          (initBins n) w1) as Hlen.
  destruct (loop_counters uuids clock n cycleStart patients []
                          (initBins n) w1) as [Hu Hc].
  cbn [map app length uuidCalls clockReads w1] in Hids, Hct, Hlen, Hu, Hc.
  rewrite Hlen. cbn [Nat.add].
  split; [exact Hids|]. split; [exact Hct|].
  split; [exact Hu|]. split; [rewrite Hc; lia|].
  intros Hinj. rewrite Hids.
  apply NoDup_map_injective; [exact Hinj | apply seq_NoDup].
Qed.

Lemma batch_task_identities_witness :
  exists result w',
    TaskGenerator.generateTasksForPatients sampleUuids sampleClock
      defaultGenerator [record "patient-1"; record ""; record "patient-2"]
      cycle0 world0
    = (Normal result, w')
    /\ uuidCalls w'
       = (0 + length (TaskGenerationResult.tasks result))%nat.
Proof.
  destruct (batch_task_identities sampleUuids sampleClock
              TaskGenerator.emptyConfig defaultGenerator
              [record "patient-1"; record ""; record "patient-2"]
              cycle0 world0 eq_refl)
    as (result & w' & Hrun & _ & _ & Hu & _).
  exists result, w'. split; [exact Hrun | exact Hu].
Defined.

(** X6.  With a clock that never runs backwards, the measured generation
    time of a batch is not negative, it is the difference between the last
    and the first clock reading of the call, and every task was created
    between those two readings. *)
Theorem batch_timing (uuids : nat -> Js.JsString) (clock : nat -> Z)
    (config : TaskGeneratorConfig.t) (g : TaskGenerator.t)
    (patients : list PatientInput.t) (cycleStart : Date) (w : World) :
  TaskGenerator.constructor config = Normal g ->
  (forall i j, (i <= j)%nat -> clock i <= clock j) ->
  exists result w',
    TaskGenerator.generateTasksForPatients uuids clock g patients
                                           cycleStart w
    = (Normal result, w')
    /\ Stats.generationTimeMs (TaskGenerationResult.stats result)
       = clock (Nat.pred (clockReads w')) - clock (clockReads w)
    /\ 0 <= Stats.generationTimeMs (TaskGenerationResult.stats result)
    /\ Forall (fun task =>
                 exists createdAt,
                   ScrapeTask.createdAt task = ValidDate createdAt
                   /\ clock (clockReads w) <= createdAt
                      <= clock (Nat.pred (clockReads w')))
              (TaskGenerationResult.tasks result).
Proof.
  intros Hg Hmono. destruct (constructor_normal config g Hg) as [Hpos _].
  rewrite (generateTasksForPatients_run uuids clock g Hpos).
  do 2 eexists. split; [reflexivity|].
  cbn [TaskGenerationResult.tasks TaskGenerationResult.stats
       Stats.generationTimeMs clockReads Nat.pred].
  set (w1 := MkWorld (uuidCalls w) (S (clockReads w)) (console w)).
  set (n := TaskGenerator.binCount g).
  pose proof (loop_createdAt uuids clock n cycleStart patients []
                             (initBins n) w1) as Hct.
  destruct (loop_counters uuids clock n cycleStart patients []
                          (initBins n) w1) as [_ Hc].
  cbn [map app clockReads w1] in Hct, Hc.
  set (k := length (filter isValidRecord patients)) in *.
  split; [reflexivity|]. split.
  - rewrite Hc. pose proof (Hmono (clockReads w) (S (clockReads w) + k)%nat).
    lia.
  - rewrite Hc. apply Forall_forall. intros task Hin.
    assert (Hin' : In (ScrapeTask.createdAt task)
                      (map (fun k => ValidDate (clock k))
                           (seq (S (clockReads w)) k))).
    { rewrite <- Hct. apply in_map. exact Hin. }
    apply in_map_iff in Hin'. destruct Hin' as (i & <- & Hi).
    apply in_seq in Hi. exists (clock i).
    split; [reflexivity|]. split; apply Hmono; lia.
Qed.

Lemma batch_timing_witness :
  exists result w',
    TaskGenerator.generateTasksForPatients sampleUuids sampleClock
      defaultGenerator [record "patient-1"; record "patient-2"]
      cycle0 world0
    = (Normal result, w')
    /\ 0 <= Stats.generationTimeMs (TaskGenerationResult.stats result).
Proof.
  assert (Hmono : forall i j, (i <= j)%nat -> sampleClock i <= sampleClock j).
  { intros i j Hij. unfold sampleClock. lia. }
  destruct (batch_timing sampleUuids sampleClock
              TaskGenerator.emptyConfig defaultGenerator
              [record "patient-1"; record "patient-2"]
              cycle0 world0 eq_refl Hmono)
    as (result & w' & Hrun & _ & Hnn & _).
  exists result, w'. split; [exact Hrun | exact Hnn].
Defined.

Lemma loop_reschedule (uuids : nat -> Js.JsString) (clock : nat -> Z)
    (n : Z) (cycleStart other : Date) (patients : list PatientInput.t)
    (tasks : list ScrapeTask.t) (bins : JsMap.t) (w : World) :
  loopResult uuids clock n patients other
             (map (reschedule other) tasks) bins w
  = ((map (reschedule other)
          (fst (fst (loopResult uuids clock n patients cycleStart
                                tasks bins w))),
      snd (fst (loopResult uuids clock n patients cycleStart tasks bins w))),
     snd (loopResult uuids clock n patients cycleStart tasks bins w)).
Proof.
  revert tasks bins w.
  induction patients as [|p rest IH]; intros tasks bins w; cbn [loopResult].
  - reflexivity.
  - destruct (isValidRecord p).
    + rewrite <- IH. f_equal. rewrite map_app. reflexivity.
    + apply IH.
Qed.

(** X7.  Running the batch for another cycle start, in the same world,
    gives the same tasks rescheduled: identities, offsets, order,
    statistics and the world left behind are the same, and every [fireAt]
    is the [Date] its offset gives in the other cycle.  For a cycle that
    starts [d] milliseconds later, a fire time that was valid moves by
    exactly [d] when the moved time is within the range of dates, and
    becomes the invalid [Date] when it lies beyond the range.  With [d] the
    interval, this is the no-gap guarantee for a whole batch. *)
Theorem batch_shifts_with_cycle (uuids : nat -> Js.JsString)
    (clock : nat -> Z) (config : TaskGeneratorConfig.t)
    (g : TaskGenerator.t) (patients : list PatientInput.t)
    (cycleStart d : Z) (w : World) :
  TaskGenerator.constructor config = Normal g ->
  exists result w',
    TaskGenerator.generateTasksForPatients uuids clock g patients
                                           (ValidDate cycleStart) w
    = (Normal result, w')
    /\ TaskGenerator.generateTasksForPatients uuids clock g patients
                                              (ValidDate (cycleStart + d)) w
       = (Normal (TaskGenerationResult.Make
                    (map (reschedule (ValidDate (cycleStart + d)))
                         (TaskGenerationResult.tasks result))
                    (TaskGenerationResult.stats result)), w')
    /\ Forall (fun task =>
                 forall fireAt,
                   ScrapeTask.fireAt task = ValidDate fireAt ->
                   (inDateRange (fireAt + d) ->
                    ScrapeTask.fireAt
                      (reschedule (ValidDate (cycleStart + d)) task)
                    = ValidDate (fireAt + d))
                   /\ (MAX_TIME < fireAt + d ->
                       ScrapeTask.fireAt
                         (reschedule (ValidDate (cycleStart + d)) task)
                       = InvalidDate))
              (TaskGenerationResult.tasks result).
Proof.
  intros Hg. destruct (constructor_normal config g Hg) as [Hpos _].
  rewrite !(generateTasksForPatients_run uuids clock g Hpos).
  do 2 eexists. split; [reflexivity|].
  cbn [TaskGenerationResult.tasks TaskGenerationResult.stats].
  set (w1 := MkWorld (uuidCalls w) (S (clockReads w)) (console w)).
  set (n := TaskGenerator.binCount g).
  split.
  - pose proof (loop_reschedule uuids clock n (ValidDate cycleStart)
                  (ValidDate (cycleStart + d)) patients [] (initBins n) w1)
      as Hs.
    cbn [map] in Hs. rewrite Hs. cbn [fst snd].
    rewrite length_map. reflexivity.
  - apply loop_Forall; [|constructor].
    intros p w0 fireAt. unfold reschedule, taskOf.
    cbn [ScrapeTask.fireAt ScrapeTask.offsetSeconds fireDate].
    generalize (binOf (PatientInput.id p) n). intros off.
    unfold newDate at 1.
    destruct (Z.abs (cycleStart + off * 1000) <=? MAX_TIME);
      [|discriminate].
    intros Hf. injection Hf as <-.
    replace (cycleStart + d + off * 1000)
      with (cycleStart + off * 1000 + d) by lia.
    split; [apply newDate_valid | apply newDate_invalid].
Qed.

Lemma batch_shifts_with_cycle_witness :
  exists result w',
    TaskGenerator.generateTasksForPatients sampleUuids sampleClock
      defaultGenerator [record "patient-nogap-test"]
      (ValidDate 1768903200000) world0
    = (Normal result, w')
    /\ TaskGenerator.generateTasksForPatients sampleUuids sampleClock
         defaultGenerator [record "patient-nogap-test"]
         (ValidDate (1768903200000 + 300000)) world0
       = (Normal (TaskGenerationResult.Make
                    (map (reschedule (ValidDate (1768903200000 + 300000)))
                         (TaskGenerationResult.tasks result))
                    (TaskGenerationResult.stats result)), w').
Proof.
  destruct (batch_shifts_with_cycle sampleUuids sampleClock
              TaskGenerator.emptyConfig defaultGenerator
              [record "patient-nogap-test"] 1768903200000 300000 world0
              eq_refl)
    as (result & w' & H1 & H2 & _).
  exists result, w'. split; [exact H1 | exact H2].
Defined.

Lemma loop_prefix (uuids : nat -> Js.JsString) (clock : nat -> Z) (n : Z)
    (cycleStart : Date) (patients : list PatientInput.t)
    (tasks : list ScrapeTask.t) (bins : JsMap.t) (w : World) :
  exists more,
    fst (fst (loopResult uuids clock n patients cycleStart tasks bins w))
    = tasks ++ more.
Proof.
  revert tasks bins w.
  induction patients as [|p rest IH]; intros tasks bins w; cbn [loopResult].
  - exists []. cbn. rewrite app_nil_r. reflexivity.
  - destruct (isValidRecord p).
    + destruct (IH (tasks ++ [taskOf uuids clock n p cycleStart w])
                   (bump bins (binOf (PatientInput.id p) n)) (afterTask w))
        as [more Hm].
      rewrite Hm, <- app_assoc. eexists. reflexivity.
    + apply IH.
Qed.

Lemma validOffsets_app (n : Z) (l1 l2 : list PatientInput.t) :
  validOffsets n (l1 ++ l2) = validOffsets n l1 ++ validOffsets n l2.
Proof. unfold validOffsets. rewrite filter_app, map_app. reflexivity. Qed.

(** X8.  Appending records to a batch leaves the tasks of the records
    that were there as they are: the tasks of the longer batch start with
    exactly the tasks of the shorter one.  Offsets, task counts and input
    counts of a concatenated batch are those of its two parts put
    together, and each bin of its histogram holds the sum of the two
    parts' counts. *)
Theorem batch_of_concatenation (uuids : nat -> Js.JsString)
    (clock : nat -> Z) (config : TaskGeneratorConfig.t)
    (g : TaskGenerator.t) (l1 l2 : list PatientInput.t)
    (cycleStart : Date) (w : World) :
  TaskGenerator.constructor config = Normal g ->
  exists r1 w1 r2 w2 r12 w12,
    TaskGenerator.generateTasksForPatients uuids clock g l1 cycleStart w
    = (Normal r1, w1)
    /\ TaskGenerator.generateTasksForPatients uuids clock g l2 cycleStart w
       = (Normal r2, w2)
    /\ TaskGenerator.generateTasksForPatients uuids clock g (l1 ++ l2)
                                              cycleStart w
       = (Normal r12, w12)
    /\ (exists more,
          TaskGenerationResult.tasks r12
          = TaskGenerationResult.tasks r1 ++ more)
    /\ map ScrapeTask.offsetSeconds (TaskGenerationResult.tasks r12)
       = map ScrapeTask.offsetSeconds (TaskGenerationResult.tasks r1)
           ++ map ScrapeTask.offsetSeconds (TaskGenerationResult.tasks r2)
    /\ Stats.tasksGenerated (TaskGenerationResult.stats r12)
       = Stats.tasksGenerated (TaskGenerationResult.stats r1)
         + Stats.tasksGenerated (TaskGenerationResult.stats r2)
    /\ Stats.totalPatients (TaskGenerationResult.stats r12)
       = Stats.totalPatients (TaskGenerationResult.stats r1)
         + Stats.totalPatients (TaskGenerationResult.stats r2)
    /\ forall b,
        0 <= b < TaskGenerator.binCount g ->
        exists c1 c2,
          JsMap.get (Stats.binDistribution (TaskGenerationResult.stats r1)) b
          = Some c1
          /\ JsMap.get (Stats.binDistribution
                          (TaskGenerationResult.stats r2)) b = Some c2
          /\ JsMap.get (Stats.binDistribution
                          (TaskGenerationResult.stats r12)) b
             = Some (c1 + c2).
Proof.
  intros Hg. destruct (constructor_normal config g Hg) as [Hpos _].
  rewrite !(generateTasksForPatients_run uuids clock g Hpos).
  do 6 eexists.
  split; [reflexivity|]. split; [reflexivity|]. split; [reflexivity|].
  cbn [TaskGenerationResult.tasks TaskGenerationResult.stats
       Stats.tasksGenerated Stats.totalPatients Stats.binDistribution].
  set (w1 := MkWorld (uuidCalls w) (S (clockReads w)) (console w)).
  set (n := TaskGenerator.binCount g).
  split.
  { rewrite loop_app. apply loop_prefix. }
  rewrite !loop_offsets, !loop_length, !loop_bins. cbn [map app length].
  split; [apply validOffsets_app|].
  split; [rewrite filter_app, length_app; lia|].
  split; [rewrite length_app; lia|].
  intros b Hb. do 2 eexists.
  rewrite !(histogram_get _ _ _ Hb).
  split; [reflexivity|]. split; [reflexivity|].
  rewrite validOffsets_app, population_app. reflexivity.
Qed.

Lemma batch_of_concatenation_witness :
  exists r1 w1 r12 w12,
    TaskGenerator.generateTasksForPatients sampleUuids sampleClock
      defaultGenerator [record "existing-patient-1"] cycle0 world0
    = (Normal r1, w1)
    /\ TaskGenerator.generateTasksForPatients sampleUuids sampleClock
         defaultGenerator
         ([record "existing-patient-1"] ++ [record "patient-1"])
         cycle0 world0
       = (Normal r12, w12)
    /\ exists more,
        TaskGenerationResult.tasks r12
        = TaskGenerationResult.tasks r1 ++ more.
Proof.
  destruct (batch_of_concatenation sampleUuids sampleClock
              TaskGenerator.emptyConfig defaultGenerator
              [record "existing-patient-1"] [record "patient-1"]
              cycle0 world0 eq_refl)
    as (r1 & w1 & _ & _ & r12 & w12 & H1 & _ & H12 & Hpre & _).
  exists r1, w1, r12, w12. split; [exact H1|]. split; [exact H12 | exact Hpre].
Defined.

(* ================================================================== *)
(** ** Totals, extremes and spread of a histogram *)

Lemma sumZ_add (f h : Z -> Z) (l : list Z) :
  sumZ (map (fun b => f b + h b) l) = sumZ (map f l) + sumZ (map h l).
Proof.
  induction l as [|b l IH]; cbn [map sumZ fold_right]; [reflexivity|].
  fold (sumZ (map (fun b => f b + h b) l)).
  fold (sumZ (map f l)). fold (sumZ (map h l)). lia.
Qed.

Lemma sumZ_indicator (o : Z) (l : list Z) :
  NoDup l ->
  sumZ (map (fun b => if o =? b then 1 else 0) l)
  = if in_dec Z.eq_dec o l then 1 else 0.
Proof.
  induction 1 as [|b l Hnotin _ IH]; cbn [map sumZ fold_right].
  - reflexivity.
  - fold (sumZ (map (fun b => if o =? b then 1 else 0) l)). rewrite IH.
    destruct (Z.eqb_spec o b) as [->|Hne].
    + destruct (in_dec Z.eq_dec b l) as [Hin|_]; [contradiction|].
      destruct (in_dec Z.eq_dec b (b :: l)) as [_|Hn]; [reflexivity|].
      exfalso. apply Hn. left. reflexivity.
    + destruct (in_dec Z.eq_dec o l) as [Hin|Hnin];
        destruct (in_dec Z.eq_dec o (b :: l)) as [Hin'|Hnin'];
        try reflexivity.
      * exfalso. apply Hnin'. right. exact Hin.
      * exfalso. destruct Hin' as [->|Hin']; [congruence | contradiction].
Qed.

(** Every offset in range is counted in exactly one bin. *)
Lemma population_total (offsets : list Z) (binCount : Z) :
  Forall (fun o => 0 <= o < binCount) offsets ->
  sumZ (map (population offsets) (binIndices binCount))
  = Z.of_nat (length offsets).
Proof.
  induction 1 as [|o r Ho _ IH].
  - cbn [length]. induction (binIndices binCount) as [|b l IHl];
      [reflexivity|].
    cbn [map sumZ fold_right]. fold (sumZ (map (population []) l)).
    rewrite IHl. reflexivity.
  - rewrite (map_ext _ (fun b => (if o =? b then 1 else 0) + population r b))
      by (intros b; apply population_cons).
    rewrite sumZ_add, IH, sumZ_indicator by apply binIndices_NoDup.
    destruct (in_dec Z.eq_dec o (binIndices binCount)) as [_|Hn].
    + cbn [length]. lia.
    + exfalso. apply Hn. apply in_binIndices. exact Ho.
Qed.

(** X9.  The counts of the [binDistribution] of a batch add up to
    [tasksGenerated]: every returned task is counted in exactly one bin
    and nothing else is. *)
Theorem binDistribution_total (uuids : nat -> Js.JsString)
    (clock : nat -> Z) (config : TaskGeneratorConfig.t)
    (g : TaskGenerator.t) (patients : list PatientInput.t)
    (cycleStart : Date) (w : World) :
  TaskGenerator.constructor config = Normal g ->
  exists result w',
    TaskGenerator.generateTasksForPatients uuids clock g patients
                                           cycleStart w
    = (Normal result, w')
    /\ sumZ (JsMap.values
               (Stats.binDistribution (TaskGenerationResult.stats result)))
       = Stats.tasksGenerated (TaskGenerationResult.stats result)
    /\ Forall (fun c => 0 <= c)
              (JsMap.values
                 (Stats.binDistribution
                    (TaskGenerationResult.stats result))).
Proof.
  intros Hg. destruct (constructor_normal config g Hg) as [Hpos _].
  rewrite (generateTasksForPatients_run uuids clock g Hpos).
  do 2 eexists. split; [reflexivity|].
  cbn [TaskGenerationResult.stats Stats.binDistribution
       Stats.tasksGenerated].
  rewrite loop_bins, loop_length. cbn [length Nat.add].
  pose proof (validOffsets_range _ patients Hpos) as Hrange.
  rewrite (histogram_values _ _ Hrange). split.
  - rewrite (population_total _ _ Hrange).
    unfold validOffsets. rewrite length_map. reflexivity.
  - apply Forall_map, Forall_forall. intros b _. apply population_nonneg.
Qed.

Lemma binDistribution_total_witness :
  exists result w',
    TaskGenerator.generateTasksForPatients sampleUuids sampleClock
      defaultGenerator [record "patient-1"; record ""; record "patient-2"]
      cycle0 world0
    = (Normal result, w')
    /\ sumZ (JsMap.values
               (Stats.binDistribution (TaskGenerationResult.stats result)))
       = Stats.tasksGenerated (TaskGenerationResult.stats result).
Proof.
  destruct (binDistribution_total sampleUuids sampleClock
              TaskGenerator.emptyConfig defaultGenerator
              [record "patient-1"; record ""; record "patient-2"]
              cycle0 world0 eq_refl)
    as (result & w' & Hrun & Hsum & _).
  exists result, w'. split; [exact Hrun | exact Hsum].
Defined.

(** The histogram of identifiers, as [analyzeDistribution] returns it. *)
Lemma analyzeDistribution_counts (patientIds : list Js.JsString)
    (binCount : Z) (d : Distribution.t) :
  analyzeDistribution patientIds binCount = Normal d ->
  (patientIds = [] \/ 0 < binCount)
  /\ Forall (fun i => isBlank i = false) patientIds
  /\ JsMap.values (Distribution.binCounts d)
     = binPopulations patientIds binCount.
Proof.
  intros Hd.
  destruct (analyzeDistribution_normal _ _ _ Hd)
    as (Hor & Hall & Hoff & Hrange & ->).
  split; [exact Hor|]. split; [exact Hall|].
  unfold binPopulations. rewrite Hoff. apply histogram_values, Hrange.
Qed.

(** The statistics of [analyzeDistribution], from the counts it holds. *)
Lemma analyzeDistribution_record (patientIds : list Js.JsString)
    (binCount : Z) (d : Distribution.t) :
  analyzeDistribution patientIds binCount = Normal d ->
  Distribution.min d
  = fold_left mathMin (JsMap.values (Distribution.binCounts d)) Infinity
  /\ Distribution.max d
     = fold_left mathMax (JsMap.values (Distribution.binCounts d))
                 NegInfinity
  /\ Distribution.mean d
     = meanOfCounts (JsMap.values (Distribution.binCounts d))
  /\ Distribution.variance d
     = populationVariance (JsMap.values (Distribution.binCounts d))
  /\ Distribution.stdDev d
     = populationStdDev (JsMap.values (Distribution.binCounts d)).
Proof.
  unfold analyzeDistribution. intros H.
  destruct (countOffsets patientIds binCount (initBins binCount))
    as [m| |]; cbn [bind] in H; try discriminate H.
  injection H as <-.
  cbn [Distribution.binCounts Distribution.min Distribution.max
       Distribution.mean Distribution.variance Distribution.stdDev].
  unfold populationStdDev, populationVariance, meanOfCounts.
  rewrite fold_left_Zadd, Z.add_0_l. repeat split; reflexivity.
Qed.

Lemma binPopulations_total (patientIds : list Js.JsString) (binCount : Z) :
  0 < binCount ->
  Forall (fun i => isBlank i = false) patientIds ->
  sumZ (binPopulations patientIds binCount) = Z.of_nat (length patientIds).
Proof.
  intros Hpos Hall. unfold binPopulations.
  rewrite (offsetsOf_valid _ _ Hpos Hall).
  rewrite (population_total _ _ (offsets_in_range patientIds _ Hpos)).
  rewrite length_map. reflexivity.
Qed.

(** X10.  For valid identifiers and a positive bin count, the counts that
    [analyzeDistribution] returns add up to the number of identifiers, and
    the mean it returns is that number divided by [binCount], the quotient
    rounded to binary64. *)
Theorem analyzeDistribution_mean (patientIds : list Js.JsString)
    (binCount : Z) :
  0 < binCount ->
  Forall (fun i => isBlank i = false) patientIds ->
  exists d,
    analyzeDistribution patientIds binCount = Normal d
    /\ sumZ (JsMap.values (Distribution.binCounts d))
       = Z.of_nat (length patientIds)
    /\ Distribution.mean d
       = (Z2F (Z.of_nat (length patientIds)) / Z2F binCount)%float.
Proof.
  intros Hpos Hall.
  destruct (analyzeDistribution_stats _ _ Hpos Hall)
    as (d & Hd & Hvals & Hmean & _).
  exists d. split; [exact Hd|].
  pose proof (binPopulations_total _ _ Hpos Hall) as Htot.
  split; [rewrite Hvals; exact Htot|].
  rewrite Hmean. unfold meanOfCounts.
  rewrite Htot, binPopulations_length, Z2Nat.id by lia. reflexivity.
Qed.

Lemma analyzeDistribution_mean_witness :
  exists d,
    analyzeDistribution [Js.lit "patient-1"; Js.lit "patient-2"] 4 = Normal d
    /\ Distribution.mean d = (Z2F 2 / Z2F 4)%float.
Proof.
  assert (Hpos : 0 < 4) by lia.
  destruct (analyzeDistribution_mean
              [Js.lit "patient-1"; Js.lit "patient-2"] 4 Hpos)
    as (d & Hd & _ & Hmean).
  - repeat constructor.
  - exists d. split; [exact Hd | exact Hmean].
Defined.

Lemma fold_min_spec (cs : list Z) (c0 : Z) :
  In (fold_left Z.min cs c0) (c0 :: cs)
  /\ Forall (fun c => fold_left Z.min cs c0 <= c) (c0 :: cs).
Proof.
  revert c0. induction cs as [|c cs IH]; intros c0; cbn [fold_left].
  - split; [left; reflexivity | constructor; [lia | constructor]].
  - destruct (IH (Z.min c0 c)) as [Hin Hall].
    inversion Hall as [|? ? Hhd Htl]; subst. split.
    + destruct Hin as [Hin|Hin]; [|right; right; exact Hin].
      rewrite <- Hin. destruct (Z.min_spec c0 c) as [[_ ->]|[_ ->]];
        [left | right; left]; reflexivity.
    + constructor; [lia|]. constructor; [lia | exact Htl].
Qed.

Lemma fold_max_spec (cs : list Z) (c0 : Z) :
  In (fold_left Z.max cs c0) (c0 :: cs)
  /\ Forall (fun c => c <= fold_left Z.max cs c0) (c0 :: cs).
Proof.
  revert c0. induction cs as [|c cs IH]; intros c0; cbn [fold_left].
  - split; [left; reflexivity | constructor; [lia | constructor]].
  - destruct (IH (Z.max c0 c)) as [Hin Hall].
    inversion Hall as [|? ? Hhd Htl]; subst. split.
    + destruct Hin as [Hin|Hin]; [|right; right; exact Hin].
      rewrite <- Hin. destruct (Z.max_spec c0 c) as [[_ ->]|[_ ->]];
        [right; left | left]; reflexivity.
    + constructor; [lia|]. constructor; [lia | exact Htl].
Qed.

Lemma fold_mathMin_finite (cs : list Z) (c : Z) :
  fold_left mathMin cs (Finite c) = Finite (fold_left Z.min cs c).
Proof.
  revert c. induction cs as [|x cs IH]; intros c; cbn [fold_left mathMin];
    [reflexivity | apply IH].
Qed.

Lemma fold_mathMax_finite (cs : list Z) (c : Z) :
  fold_left mathMax cs (Finite c) = Finite (fold_left Z.max cs c).
Proof.
  revert c. induction cs as [|x cs IH]; intros c; cbn [fold_left mathMax];
    [reflexivity | apply IH].
Qed.

Lemma sumZ_bounds (lo hi : Z) (l : list Z) :
  Forall (fun c => lo <= c <= hi) l ->
  Z.of_nat (length l) * lo <= sumZ l <= Z.of_nat (length l) * hi.
Proof.
  induction 1 as [|c l Hc _ IH]; cbn [length sumZ fold_right].
  - lia.
  - fold (sumZ l). lia.
Qed.

(** [Math.min] and [Math.max] of the counts of at least one bin. *)
Lemma analyzeDistribution_extremes (patientIds : list Js.JsString)
    (binCount : Z) (d : Distribution.t) :
  analyzeDistribution patientIds binCount = Normal d ->
  0 < binCount ->
  exists m M,
    Distribution.min d = Finite m
    /\ Distribution.max d = Finite M
    /\ In m (JsMap.values (Distribution.binCounts d))
    /\ In M (JsMap.values (Distribution.binCounts d))
    /\ Forall (fun c => m <= c <= M)
              (JsMap.values (Distribution.binCounts d)).
Proof.
  intros Hd Hpos.
  destruct (analyzeDistribution_counts _ _ _ Hd) as (_ & _ & Hvals).
  destruct (analyzeDistribution_record _ _ _ Hd) as (Hmin & Hmax & _).
  assert (Hlen : length (JsMap.values (Distribution.binCounts d))
                 = Z.to_nat binCount).
  { rewrite Hvals. apply binPopulations_length. }
  destruct (JsMap.values (Distribution.binCounts d)) as [|c0 cs];
    [cbn [length] in Hlen; lia|].
  cbn [fold_left mathMin mathMax] in Hmin, Hmax.
  rewrite fold_mathMin_finite in Hmin. rewrite fold_mathMax_finite in Hmax.
  destruct (fold_min_spec cs c0) as [Hmin_in Hmin_le].
  destruct (fold_max_spec cs c0) as [Hmax_in Hmax_le].
  exists (fold_left Z.min cs c0), (fold_left Z.max cs c0).
  split; [exact Hmin|]. split; [exact Hmax|].
  split; [exact Hmin_in|]. split; [exact Hmax_in|].
  apply Forall_forall. intros c Hc.
  rewrite Forall_forall in Hmin_le, Hmax_le.
  split; [apply Hmin_le | apply Hmax_le]; exact Hc.
Qed.

(** Without bins there is no identifier either, and [Math.min] and
    [Math.max] of no argument are returned. *)
Lemma analyzeDistribution_no_bins (patientIds : list Js.JsString)
    (binCount : Z) (d : Distribution.t) :
  analyzeDistribution patientIds binCount = Normal d ->
  binCount <= 0 ->
  patientIds = []
  /\ d = Distribution.Make JsMap.empty Infinity NegInfinity nan nan nan.
Proof.
  intros Hd Hn.
  destruct (analyzeDistribution_counts _ _ _ Hd) as ([->|Hpos] & _ & _);
    [|lia].
  split; [reflexivity|].
  unfold analyzeDistribution, initBins in Hd.
  replace (Z.to_nat binCount) with 0%nat in Hd by lia.
  cbn in Hd. injection Hd as <-. reflexivity.
Qed.

(** X11.  Whenever [analyzeDistribution] returns for a positive bin count,
    [min] and [max] are counts of some bin, every bin count lies between
    them, [min] is not negative, and the exact mean, the number of
    identifiers over [binCount], lies between [min] and [max].  Whenever it
    returns for a bin count that is not positive, there is neither an
    identifier nor a bin, and [min] is [Infinity] and [max] is
    [-Infinity]. *)
Theorem analyzeDistribution_min_max (patientIds : list Js.JsString)
    (binCount : Z) (d : Distribution.t) :
  analyzeDistribution patientIds binCount = Normal d ->
  (0 < binCount
   /\ exists m M,
       Distribution.min d = Finite m
       /\ Distribution.max d = Finite M
       /\ In m (JsMap.values (Distribution.binCounts d))
       /\ In M (JsMap.values (Distribution.binCounts d))
       /\ Forall (fun c => m <= c <= M)
                 (JsMap.values (Distribution.binCounts d))
       /\ 0 <= m
       /\ m * binCount <= Z.of_nat (length patientIds) <= M * binCount)
  \/ (binCount <= 0
      /\ patientIds = []
      /\ JsMap.values (Distribution.binCounts d) = []
      /\ Distribution.min d = Infinity
      /\ Distribution.max d = NegInfinity).
Proof.
  intros Hd. destruct (Z.ltb_spec 0 binCount) as [Hpos|Hn].
  - left. split; [exact Hpos|].
    destruct (analyzeDistribution_extremes _ _ _ Hd Hpos)
      as (m & M & Hmin & Hmax & Hmin_in & Hmax_in & Hbetween).
    destruct (analyzeDistribution_counts _ _ _ Hd) as (_ & Hall & Hvals).
    exists m, M.
    split; [exact Hmin|]. split; [exact Hmax|].
    split; [exact Hmin_in|]. split; [exact Hmax_in|].
    split; [exact Hbetween|]. split.
    + rewrite Hvals in Hmin_in. apply in_map_iff in Hmin_in.
      destruct Hmin_in as (b & <- & _). apply population_nonneg.
    + pose proof (sumZ_bounds _ _ _ Hbetween) as Hb.
      rewrite Hvals, binPopulations_length, Z2Nat.id in Hb by lia.
      rewrite (binPopulations_total _ _ Hpos Hall) in Hb. lia.
  - right. split; [exact Hn|].
    destruct (analyzeDistribution_no_bins _ _ _ Hd Hn) as [Hnil ->].
    split; [exact Hnil|]. repeat split; reflexivity.
Qed.

Lemma analyzeDistribution_min_max_witness :
  exists d m M,
    analyzeDistribution [Js.lit "patient-1"; Js.lit "patient-2"] 4 = Normal d
    /\ Distribution.min d = Finite m
    /\ Distribution.max d = Finite M
    /\ 0 <= m
    /\ In M (JsMap.values (Distribution.binCounts d)).
Proof.
  destruct (analyzeDistribution_returns
              [Js.lit "patient-1"; Js.lit "patient-2"] 4)
    as [d Hd]; [lia | repeat constructor |].
  destruct (analyzeDistribution_min_max _ _ _ Hd)
    as [(_ & m & M & Hmin & Hmax & _ & HM & _ & Hnn & _) | (Hn & _)];
    [|lia].
  exists d, m, M. split; [exact Hd|]. split; [exact Hmin|].
  split; [exact Hmax|]. split; [exact Hnn | exact HM].
Defined.

Lemma population_le (offsets : list Z) (b : Z) :
  population offsets b <= Z.of_nat (length offsets).
Proof.
  unfold population.
  pose proof (filter_length_le (fun o => o =? b) offsets). lia.
Qed.

Lemma fold_left_add_notNegative (l : list float) (a : float) :
  Forall (fun x => sfNotNegative (Prim2SF x)) l ->
  sfNotNegative (Prim2SF a) ->
  sfNotNegative (Prim2SF (fold_left PrimFloat.add l a)).
Proof.
  intros Hall. revert a.
  induction Hall as [|x l Hx _ IH]; intros a Ha; cbn [fold_left].
  - exact Ha.
  - apply IH. rewrite FloatAxioms.add_spec.
    apply SFadd_notNegative; assumption.
Qed.

(** The squared deviation of a count from a mean that is not negative is
    not negative. *)
Lemma squaredDeviation_notNegative (c : Z) (mean : float) :
  0 <= c <= MAX_SAFE_INTEGER ->
  sfNotNegative (Prim2SF mean) ->
  sfNotNegative (Prim2SF ((Z2F c - mean) * (Z2F c - mean))).
Proof.
  intros Hc Hm. rewrite FloatAxioms.mul_spec, FloatAxioms.sub_spec.
  apply SFmul_square_notNegative, SFsub_notNaN; [|exact Hm].
  destruct (Z2F_safe c Hc) as [->|H]; [left; reflexivity | right; exact H].
Qed.

(** Mean, variance and standard deviation of counts that are safe
    integers are not negative. *)
Lemma statistics_notNegative (counts : list Z) :
  0 < Z.of_nat (length counts) <= MAX_SAFE_INTEGER ->
  Forall (fun c => 0 <= c <= MAX_SAFE_INTEGER) counts ->
  notNegative (meanOfCounts counts)
  /\ notNegative (populationVariance counts)
  /\ notNegative (populationStdDev counts).
Proof.
  intros Hlen Hall.
  assert (Hmean : sfNotNegative (Prim2SF (meanOfCounts counts))).
  { apply meanOfCounts_notNegative; [exact Hlen|].
    revert Hall. apply Forall_impl. intros c Hc. lia. }
  destruct (Z2F_finite _ Hlen) as (m & e & Hl).
  assert (Hvar : sfNotNegative (Prim2SF (populationVariance counts))).
  { unfold populationVariance. apply (div_notNegative _ _ m e); [|exact Hl].
    apply fold_left_add_notNegative; [|exact I].
    apply Forall_map. revert Hall. apply Forall_impl. intros c Hc.
    apply squaredDeviation_notNegative; assumption. }
  split; [apply notNegative_spec; exact Hmean|].
  split; [apply notNegative_spec; exact Hvar|].
  apply notNegative_spec. unfold populationStdDev.
  rewrite FloatAxioms.sqrt_spec. apply SFsqrt_notNegative, Hvar.
Qed.

(** X12.  For valid identifiers and a positive bin count, both the bin
    count and the number of identifiers being safe integers, the mean, the
    variance and the standard deviation that [analyzeDistribution] returns
    are numbers (not NaN) that are not negative, and the standard deviation
    is the square root of the variance, rounded to binary64. *)
Theorem analyzeDistribution_spread (patientIds : list Js.JsString)
    (binCount : Z) :
  0 < binCount <= MAX_SAFE_INTEGER ->
  Z.of_nat (length patientIds) <= MAX_SAFE_INTEGER ->
  Forall (fun i => isBlank i = false) patientIds ->
  exists d,
    analyzeDistribution patientIds binCount = Normal d
    /\ notNegative (Distribution.mean d)
    /\ notNegative (Distribution.variance d)
    /\ notNegative (Distribution.stdDev d)
    /\ Distribution.stdDev d = PrimFloat.sqrt (Distribution.variance d).
Proof.
  intros Hbin Hids Hall.
  assert (Hpos : 0 < binCount) by lia.
  destruct (analyzeDistribution_stats _ _ Hpos Hall)
    as (d & Hd & _ & Hmean & Hvar & Hstd).
  exists d. split; [exact Hd|].
  rewrite Hmean, Hvar, Hstd.
  destruct (statistics_notNegative (binPopulations patientIds binCount))
    as (H1 & H2 & H3).
  - apply binPopulations_safe, Hbin.
  - unfold binPopulations. rewrite (offsetsOf_valid _ _ Hpos Hall).
    apply Forall_map, Forall_forall. intros b _.
    pose proof (population_nonneg
                  (map (fun i => binOf i binCount) patientIds) b).
    pose proof (population_le
                  (map (fun i => binOf i binCount) patientIds) b) as Hle.
    rewrite length_map in Hle. lia.
  - repeat split; assumption.
Qed.

Lemma analyzeDistribution_spread_witness :
  exists d,
    analyzeDistribution [Js.lit "patient-1"; Js.lit "patient-2"] 4 = Normal d
    /\ notNegative (Distribution.variance d)
    /\ notNegative (Distribution.stdDev d).
Proof.
  assert (Hbin : 0 < 4 <= MAX_SAFE_INTEGER) by (unfold MAX_SAFE_INTEGER; lia).
  assert (Hids : Z.of_nat (length [Js.lit "patient-1"; Js.lit "patient-2"])
                 <= MAX_SAFE_INTEGER) by (unfold MAX_SAFE_INTEGER; cbn; lia).
  destruct (analyzeDistribution_spread
              [Js.lit "patient-1"; Js.lit "patient-2"] 4 Hbin Hids)
    as (d & Hd & _ & Hvar & Hstd & _).
  - repeat constructor.
  - exists d. split; [exact Hd|]. split; [exact Hvar | exact Hstd].
Defined.

(* ================================================================== *)
(** ** Analysis: failures *)

Lemma blank_or_not (patientIds : list Js.JsString) :
  Forall (fun i => isBlank i = false) patientIds
  \/ Exists (fun i => isBlank i = true) patientIds.
Proof.
  induction patientIds as [|i r [IH|IH]].
  - left. constructor.
  - destruct (isBlank i) eqn:Ei.
    + right. constructor. exact Ei.
    + left. constructor; assumption.
  - right. apply Exists_cons_tl. exact IH.
Qed.

Lemma blank_and_not (patientIds : list Js.JsString) :
  Forall (fun i => isBlank i = false) patientIds ->
  Exists (fun i => isBlank i = true) patientIds -> False.
Proof.
  intros Hall Hex. apply Exists_exists in Hex. destruct Hex as (i & Hin & Hi).
  rewrite Forall_forall in Hall. rewrite (Hall i Hin) in Hi. discriminate Hi.
Qed.

Lemma countOffsets_finite (patientIds : list Js.JsString) (binCount : Z)
    (bins : JsMap.t) :
  countOffsets patientIds binCount bins <> NonFinite.
Proof.
  revert bins. induction patientIds as [|i r IH]; intros bins;
    cbn [countOffsets].
  - discriminate.
  - rewrite computeOffset_cases.
    destruct (isBlank i); [discriminate|].
    destruct (binCount <=? 0); [discriminate|].
    cbn [bind]. apply IH.
Qed.

Lemma analyzeDistribution_finite (patientIds : list Js.JsString)
    (binCount : Z) :
  analyzeDistribution patientIds binCount <> NonFinite.
Proof.
  unfold analyzeDistribution.
  pose proof (countOffsets_finite patientIds binCount (initBins binCount)).
  destruct (countOffsets patientIds binCount (initBins binCount));
    cbn [bind]; [discriminate | discriminate | contradiction].
Qed.

Lemma analyzeDistribution_returns_iff (patientIds : list Js.JsString)
    (binCount : Z) :
  returns (analyzeDistribution patientIds binCount)
  <-> Forall (fun i => isBlank i = false) patientIds
      /\ (patientIds = [] \/ 0 < binCount).
Proof.
  split.
  - intros [d Hd].
    destruct (analyzeDistribution_counts _ _ _ Hd) as (Hor & Hall & _). auto.
  - intros [Hall [->|Hn]].
    + eexists. reflexivity.
    + apply analyzeDistribution_returns; assumption.
Qed.

Lemma analyzeDistribution_throws (patientIds : list Js.JsString)
    (binCount : Z) :
  throws (analyzeDistribution patientIds binCount)
  <-> patientIds <> []
      /\ (Exists (fun i => isBlank i = true) patientIds \/ binCount <= 0).
Proof.
  split.
  - intros [e He].
    assert (Hne : patientIds <> []).
    { intros ->. discriminate He. }
    split; [exact Hne|].
    destruct (blank_or_not patientIds) as [Hall|Hex]; [|left; exact Hex].
    right. destruct (Z.leb_spec binCount 0) as [Hn|Hn]; [exact Hn|].
    exfalso. destruct (analyzeDistribution_returns _ _ Hn Hall) as [d Hd].
    rewrite Hd in He. discriminate He.
  - intros [Hne Hor].
    destruct (analyzeDistribution patientIds binCount) as [d|e|] eqn:E.
    + exfalso.
      destruct (analyzeDistribution_counts _ _ _ E) as (Hn & Hall & _).
      destruct Hor as [Hex|Hle].
      * exact (blank_and_not _ Hall Hex).
      * destruct Hn as [Hnil|Hpos]; [contradiction | lia].
    + eexists. reflexivity.
    + exfalso. exact (analyzeDistribution_finite _ _ E).
Qed.

(** X13.  [analyzeDistribution] has no partial-failure handling: it
    throws exactly when the list is not empty and either some identifier in
    it is blank or [binCount <= 0]; otherwise it returns.  It returns
    statistics with a finite minimum and maximum exactly when every
    identifier is valid and [binCount] is positive.  In the one remaining
    case, no identifier and [binCount <= 0], it returns an empty histogram,
    [Infinity] as minimum, [-Infinity] as maximum, and NaN as mean,
    variance and standard deviation. *)
Theorem analyzeDistribution_failures (patientIds : list Js.JsString)
    (binCount : Z) :
  (throws (analyzeDistribution patientIds binCount)
   <-> patientIds <> []
       /\ (Exists (fun i => isBlank i = true) patientIds \/ binCount <= 0))
  /\ (returns (analyzeDistribution patientIds binCount)
      <-> Forall (fun i => isBlank i = false) patientIds
          /\ (patientIds = [] \/ 0 < binCount))
  /\ ((exists d m M,
         analyzeDistribution patientIds binCount = Normal d
         /\ Distribution.min d = Finite m
         /\ Distribution.max d = Finite M)
      <-> Forall (fun i => isBlank i = false) patientIds /\ 0 < binCount)
  /\ (patientIds = [] -> binCount <= 0 ->
      analyzeDistribution patientIds binCount
      = Normal (Distribution.Make JsMap.empty Infinity NegInfinity
                                  nan nan nan)).
Proof.
  split; [apply analyzeDistribution_throws|].
  split; [apply analyzeDistribution_returns_iff|].
  split.
  - split.
    + intros (d & m & M & Hd & Hmin & _).
      destruct (analyzeDistribution_counts _ _ _ Hd) as (_ & Hall & _).
      split; [exact Hall|].
      destruct (Z.ltb_spec 0 binCount) as [Hpos|Hn]; [exact Hpos|].
      destruct (analyzeDistribution_no_bins _ _ _ Hd Hn) as [_ ->].
      discriminate Hmin.
    + intros [Hall Hpos].
      destruct (analyzeDistribution_returns _ _ Hpos Hall) as [d Hd].
      destruct (analyzeDistribution_extremes _ _ _ Hd Hpos)
        as (m & M & Hmin & Hmax & _).
      exists d, m, M. split; [exact Hd|]. split; assumption.
  - intros -> Hn.
    destruct (proj2 (analyzeDistribution_returns_iff [] binCount))
      as [d Hd]; [split; [constructor | left; reflexivity]|].
    destruct (analyzeDistribution_no_bins _ _ _ Hd Hn) as [_ ->].
    exact Hd.
Qed.

(** X14.  The method [analyzeDistribution] of a generator hashes the
    identifier of every record, so, unlike the batch call on the same
    records, it throws as soon as one record is not valid.  When every
    record is valid it returns, and its histogram is the [binDistribution]
    that the batch call computes. *)
Theorem method_analyzeDistribution (uuids : nat -> Js.JsString)
    (clock : nat -> Z) (config : TaskGeneratorConfig.t)
    (g : TaskGenerator.t) (patients : list PatientInput.t)
    (cycleStart : Date) (w : World) :
  TaskGenerator.constructor config = Normal g ->
  (throws (TaskGenerator.analyzeDistribution g patients)
   <-> exists p, In p patients /\ isValidRecord p = false)
  /\ (forallb isValidRecord patients = true ->
      exists d result w',
        TaskGenerator.analyzeDistribution g patients = Normal d
        /\ TaskGenerator.generateTasksForPatients uuids clock g patients
                                                  cycleStart w
           = (Normal result, w')
        /\ Distribution.binCounts d
           = Stats.binDistribution (TaskGenerationResult.stats result)).
Proof.
  intros Hg. destruct (constructor_normal config g Hg) as [Hpos _].
  unfold TaskGenerator.analyzeDistribution. split.
  - rewrite analyzeDistribution_throws. split.
    + intros [_ [Hex|Hle]]; [|lia].
      apply Exists_exists in Hex. destruct Hex as (i & Hin & Hi).
      apply in_map_iff in Hin. destruct Hin as (p & <- & Hp).
      exists p. split; [exact Hp|]. unfold isValidRecord. rewrite Hi.
      reflexivity.
    + intros (p & Hp & Hinv). split.
      * destruct patients; [contradiction | discriminate].
      * left. apply Exists_exists. exists (PatientInput.id p).
        split; [apply in_map; exact Hp|].
        unfold isValidRecord in Hinv. apply negb_false_iff. exact Hinv.
  - intros Hall.
    assert (Hids : Forall (fun i => isBlank i = false)
                          (map PatientInput.id patients)).
    { apply Forall_map, Forall_forall. intros p Hp.
      rewrite forallb_forall in Hall. specialize (Hall p Hp).
      unfold isValidRecord in Hall. apply negb_true_iff. exact Hall. }
    destruct (analyzeDistribution_returns _ _ Hpos Hids) as [d Hd].
    rewrite (generateTasksForPatients_run uuids clock g Hpos).
    exists d. do 2 eexists. split; [exact Hd|]. split; [reflexivity|].
    cbn [TaskGenerationResult.stats Stats.binDistribution].
    destruct (analyzeDistribution_normal _ _ _ Hd) as (_ & _ & _ & _ & ->).
    rewrite loop_bins. unfold validOffsets.
    rewrite (filter_all _ _ Hall), map_map. reflexivity.
Qed.

Lemma method_analyzeDistribution_witness :
  throws (TaskGenerator.analyzeDistribution defaultGenerator
            [record "patient-1"; record "   "])
  <-> exists p, In p [record "patient-1"; record "   "]
                /\ isValidRecord p = false.
Proof.
  apply (method_analyzeDistribution sampleUuids sampleClock
           TaskGenerator.emptyConfig defaultGenerator
           [record "patient-1"; record "   "] cycle0 world0 eq_refl).
Defined.

(** X15.  [isDistributionAcceptable] passes on the error of the analysis
    it calls, and it is monotone in the threshold, in the order of
    binary64: a list accepted with one threshold is accepted with every
    larger one, and a list rejected with one threshold is rejected with
    every smaller one. *)
Theorem isDistributionAcceptable_monotone (patientIds : list Js.JsString)
    (binCount : Z) :
  (forall e maxCV,
      analyzeDistribution patientIds binCount = Throw e ->
      isDistributionAcceptable patientIds binCount maxCV = Throw e)
  /\ (forall low high : float,
        (low <=? high)%float = true ->
        (isDistributionAcceptable patientIds binCount low = Normal true ->
         isDistributionAcceptable patientIds binCount high = Normal true)
        /\ (isDistributionAcceptable patientIds binCount high = Normal false ->
            isDistributionAcceptable patientIds binCount low = Normal false)).
Proof.
  unfold isDistributionAcceptable. split.
  - intros e maxCV ->. reflexivity.
  - intros low high Hle.
    destruct (analyzeDistribution patientIds binCount) as [d|e|];
      cbn [bind]; [|split; discriminate|split; discriminate].
    set (cv := if (0 <? Distribution.mean d)%float
               then (Distribution.stdDev d / Distribution.mean d)%float
               else 0%float).
    split.
    + intros H. injection H as H.
      rewrite (leb_trans cv low high H Hle). reflexivity.
    + intros H. injection H as H.
      destruct (cv <=? low)%float eqn:El; [|reflexivity].
      rewrite (leb_trans cv low high El Hle) in H. discriminate H.
Qed.

(** With no identifier and no bin the mean is NaN, the guard takes the
    coefficient of variation as 0, and the list is accepted for a threshold
    that is not negative. *)
Example isDistributionAcceptable_no_bins :
  isDistributionAcceptable [] 0 1 = Normal true.
Proof. vm_compute. reflexivity. Qed.

(** One identifier in five bins: the standard deviation is the binary64
    number above 0.4, the coefficient of variation the one above 2, and a
    threshold of 2 rejects the list. *)
Example isDistributionAcceptable_rounding :
  match analyzeDistribution [Js.lit "patient-1"] 5 with
  | Normal d =>
    Distribution.stdDev d = 0x1.999999999999bp-2%float
    /\ (Distribution.stdDev d / Distribution.mean d)%float
       = 0x1.0000000000001p+1%float
  | _ => False
  end
  /\ isDistributionAcceptable [Js.lit "patient-1"] 5 2 = Normal false.
Proof. vm_compute. repeat split; reflexivity. Qed.

(** One identifier in ten bins: the variance and the standard deviation
    are the binary64 numbers above 0.09 and 0.3, and the square of the
    standard deviation is not the variance. *)
Example analyzeDistribution_rounding :
  match analyzeDistribution [Js.lit "patient-1"] 10 with
  | Normal d =>
    Distribution.variance d = 0x1.70a3d70a3d70bp-4%float
    /\ Distribution.stdDev d = 0x1.3333333333334p-2%float
    /\ (Distribution.stdDev d * Distribution.stdDev d
        =? Distribution.variance d)%float = false
  | _ => False
  end.
Proof. vm_compute. repeat split; reflexivity. Qed.

(** X16.  [getConfig] of a generator that construction returned gives the
    configuration in effect, defaults filled in, and constructing a
    generator from that configuration gives the same generator again. *)
Theorem getConfig_round_trip (config : TaskGeneratorConfig.t)
    (g : TaskGenerator.t) :
  TaskGenerator.constructor config = Normal g ->
  TaskGenerator.intervalSeconds (TaskGenerator.getConfig g)
  = effectiveInterval config
  /\ TaskGenerator.binCount (TaskGenerator.getConfig g)
     = effectiveBinCount config
  /\ TaskGenerator.constructor
       (TaskGeneratorConfig.Make
          (Some (TaskGenerator.intervalSeconds (TaskGenerator.getConfig g)))
          (Some (TaskGenerator.binCount (TaskGenerator.getConfig g))))
     = Normal g.
Proof.
  intros Hg.
  destruct (constructor_cases config)
    as [(_ & [e E]) | [(_ & _ & [e E]) | [(_ & _ & _ & [e E]) | (Hi & Hb & Hle & E)]]];
    rewrite E in Hg; try discriminate Hg.
  injection Hg as <-.
  cbn [TaskGenerator.getConfig TaskGenerator.intervalSeconds
       TaskGenerator.binCount].
  split; [reflexivity|]. split; [reflexivity|].
  destruct (constructor_cases
              (TaskGeneratorConfig.Make (Some (effectiveInterval config))
                                        (Some (effectiveBinCount config))))
    as [(Hi' & _) | [(_ & Hb' & _) | [(_ & _ & Hg' & _) | (_ & _ & _ & E')]]];
    cbn [effectiveInterval effectiveBinCount
         TaskGeneratorConfig.intervalSeconds TaskGeneratorConfig.binCount]
      in *; try lia.
  exact E'.
Qed.

Lemma getConfig_round_trip_witness :
  TaskGenerator.intervalSeconds (TaskGenerator.getConfig defaultGenerator)
  = effectiveInterval TaskGenerator.emptyConfig
  /\ TaskGenerator.binCount (TaskGenerator.getConfig defaultGenerator)
     = effectiveBinCount TaskGenerator.emptyConfig
  /\ TaskGenerator.constructor
       (TaskGeneratorConfig.Make
          (Some (TaskGenerator.intervalSeconds
                   (TaskGenerator.getConfig defaultGenerator)))
          (Some (TaskGenerator.binCount
                   (TaskGenerator.getConfig defaultGenerator))))
     = Normal defaultGenerator.
Proof.
  apply (getConfig_round_trip TaskGenerator.emptyConfig defaultGenerator).
  reflexivity.
Defined.

(** X17.  Offsets for different bin counts agree: when [binCount] divides
    a larger bin count, the offset of an identifier for [binCount] is its
    offset for the larger count reduced modulo [binCount]. *)
Theorem computeOffset_coarser_bins (identifier : Js.JsString)
    (binCount factor : Z) :
  isBlank identifier = false -> 0 < binCount -> 0 < factor ->
  exists fine coarse,
    computeOffset identifier (binCount * factor) = Normal fine
    /\ computeOffset identifier binCount = Normal coarse
    /\ coarse = fine mod binCount.
Proof.
  intros Hid Hn Hk.
  rewrite (computeOffset_valid identifier (binCount * factor) Hid)
    by (apply Z.mul_pos_pos; assumption).
  rewrite (computeOffset_valid identifier binCount Hid Hn).
  do 2 eexists. split; [reflexivity|]. split; [reflexivity|].
  unfold binOf. symmetry. apply Z.mod_mod_divide.
  exists factor. apply Z.mul_comm.
Qed.

Lemma computeOffset_coarser_bins_witness :
  exists fine coarse,
    computeOffset (Js.lit "patient-123") (60 * 5) = Normal fine
    /\ computeOffset (Js.lit "patient-123") 60 = Normal coarse
    /\ coarse = fine mod 60.
Proof.
  apply (computeOffset_coarser_bins (Js.lit "patient-123") 60 5).
  - reflexivity.
  - lia.
  - lia.
Defined.

Lemma toHex_nibbles (bytes : list Z) :
  Js.toHex bytes = map Js.hexDigit (nibbles bytes).
Proof.
  induction bytes as [|b r IH]; cbn [Js.toHex nibbles flat_map app map].
  - reflexivity.
  - fold (nibbles r). rewrite IH. reflexivity.
Qed.

Lemma nibbles_are_nibbles (bytes : list Z) :
  Forall (fun b => 0 <= b < 256) bytes -> Forall isNibble (nibbles bytes).
Proof.
  induction 1 as [|b r Hb _ IH]; cbn [nibbles flat_map app].
  - constructor.
  - fold (nibbles r). unfold isNibble. constructor; [|constructor; [|exact IH]].
    + split; [apply Z.div_pos; lia | apply Z.div_lt_upper_bound; lia].
    + apply Z.mod_pos_bound. lia.
Qed.

Lemma hexNumber_nibbles (bytes : list Z) (acc : Z) :
  fold_left (fun a d => 16 * a + d) (nibbles bytes) acc
  = fold_left (fun a b => 256 * a + b) bytes acc.
Proof.
  revert acc. induction bytes as [|b r IH]; intros acc;
    cbn [nibbles flat_map app fold_left].
  - reflexivity.
  - fold (nibbles r). rewrite IH. f_equal.
    pose proof (Z.div_mod b 16). lia.
Qed.

(** X18.  Hexadecimal encoding and [parseInt(_, 16)] are inverse on the
    prefixes that [computeOffset] reads: for one to six bytes (where the
    value is below 2^53), parsing the hexadecimal form of the bytes gives
    the number they spell, most significant byte first. *)
Theorem parseInt16_toHex (bytes : list Z) :
  bytes <> [] -> (length bytes <= 6)%nat ->
  Forall (fun b => 0 <= b < 256) bytes ->
  Js.parseInt16 (Js.toHex bytes) = Some (bigEndian bytes).
Proof.
  intros Hne _ Hall. rewrite toHex_nibbles.
  pose proof (nibbles_are_nibbles bytes Hall) as Hnib.
  destruct bytes as [|b r]; [contradiction|].
  cbn [nibbles flat_map app] in *. fold (nibbles r) in *.
  rewrite parseInt16_digits by exact Hnib.
  unfold Js.hexNumber, bigEndian.
  change (b / 16 :: b mod 16 :: nibbles r) with (nibbles (b :: r)).
  rewrite hexNumber_nibbles. reflexivity.
Qed.

Lemma parseInt16_toHex_witness :
  Js.parseInt16 (Js.toHex [186; 120; 22; 191])
  = Some (bigEndian [186; 120; 22; 191]).
Proof.
  apply (parseInt16_toHex [186; 120; 22; 191]).
  - discriminate.
  - cbn. lia.
  - repeat constructor; lia.
Defined.
